(** * Personal expense tracker: a shallow embedding of [main.py]

    The development follows the program text of [src/main.py]:

    - text handling ([str.strip], [str.lower]) and the date check that
      [add_expense] performs through [datetime.strptime];
    - the [expenses] table, [add_expense], and the two queries
      [fetch_all] and [search_expenses];
    - the aggregation functions [total_spending], [spending_by_category]
      and [monthly_trend];
    - the chart adapters, [export_csv] and the interactive [prompt_add].

    Conventions.  A Python [str] is a [string] whose characters are the
    code points below 256.  A raised exception is a value of [result].
    The [amount] column (SQLite [REAL], a Python [float]) is idealised as
    an exact rational [Qc]: comparisons and sums are exact, rounding is
    not modelled.  Library calls (SQLite, pandas, csv, matplotlib) are
    embedded by their documented behaviour on the values this program
    hands to them. *)

From Stdlib Require Import ZArith QArith Qcanon Ascii String.
From stdpp Require Import gmap strings list sorting pretty.

Local Open Scope Z_scope.

(** ** Characters and text *)

Module Text.

Definition code (c : ascii) : Z := Z.of_N (N_of_ascii c).
Global Arguments code : simpl never.

Definition chr (n : Z) : ascii := ascii_of_N (Z.to_N n).

(** [\d] of Python's [re] on code points below 256. *)
Definition is_digit (c : ascii) : bool :=
  (48 <=? code c) && (code c <=? 57).

Definition digit_val (c : ascii) : Z := code c - 48.

Definition in_range (lo hi : Z) (c : ascii) : bool :=
  (lo <=? code c) && (code c <=? hi).

(** [str.isspace] on code points below 256: the characters that
    [str.strip()] removes. *)
Definition is_space (c : ascii) : bool :=
  in_range 9 13 c || in_range 28 32 c
  || (code c =? 133) || (code c =? 160).

Definition is_empty (s : string) : bool :=
  match s with EmptyString => true | String _ _ => false end.

Fixpoint lstrip (s : string) : string :=
  match s with
  | EmptyString => EmptyString
  | String c s' => if is_space c then lstrip s' else s
  end.

Fixpoint rstrip (s : string) : string :=
  match s with
  | EmptyString => EmptyString
  | String c s' =>
      let r := rstrip s' in
      if is_space c && is_empty r then EmptyString else String c r
  end.

(** [s.strip()] *)
Definition strip (s : string) : string := rstrip (lstrip s).

Definition lower_char (c : ascii) : ascii :=
  if in_range 65 90 c then chr (code c + 32) else c.

(** [s.lower()] as far as this program observes it, and SQLite's
    [lower()], which folds the ASCII letters only. *)
Fixpoint lower (s : string) : string :=
  match s with
  | EmptyString => EmptyString
  | String c s' => String (lower_char c) (lower s')
  end.

Fixpoint all_space (s : string) : bool :=
  match s with
  | EmptyString => true
  | String c s' => is_space c && all_space s'
  end.

Fixpoint contains (p : ascii → bool) (s : string) : bool :=
  match s with
  | EmptyString => false
  | String c s' => p c || contains p s'
  end.

Fixpoint count (p : ascii → bool) (s : string) : nat :=
  match s with
  | EmptyString => O
  | String c s' => ((if p c then 1 else 0) + count p s')%nat
  end.

(** A decimal digit as a character, and zero-padded fields. *)
Definition digit_char (n : Z) : ascii := chr (48 + n `mod` 10).

Definition pad2 (n : Z) (k : string) : string :=
  String (digit_char (n `div` 10)) (String (digit_char n) k).

Definition pad4 (n : Z) (k : string) : string :=
  String (digit_char (n `div` 1000))
    (String (digit_char (n `div` 100)) (pad2 n k)).

End Text.

(** ** Calendar dates and [datetime.strptime(_, "%Y-%m-%d")] *)

Module Calendar.
Import Text.

Record ymd : Type := Ymd { year : Z; month : Z; day : Z }.

Global Instance ymd_eq_dec : EqDecision ymd.
Proof. solve_decision. Defined.

Definition is_leap (y : Z) : bool :=
  (y `mod` 4 =? 0) && (negb (y `mod` 100 =? 0) || (y `mod` 400 =? 0)).

Definition days_in_month (y m : Z) : Z :=
  if m =? 2 then (if is_leap y then 29 else 28)
  else if (m =? 4) || (m =? 6) || (m =? 9) || (m =? 11) then 30
  else 31.

(** The constructor [datetime.date(y, m, d)], which raises
    [ValueError] outside these ranges ([MINYEAR = 1],
    [MAXYEAR = 9999]). *)
Definition valid_date (d : ymd) : bool :=
  (1 <=? year d) && (year d <=? 9999)
  && (1 <=? month d) && (month d <=? 12)
  && (1 <=? day d) && (day d <=? days_in_month (year d) (month d)).

(** The regular expressions that [_strptime] substitutes for the
    directives.  Each matcher returns its matches at the head of the
    input in the order in which a backtracking engine tries the
    alternatives, as pairs of the value read and the remaining text. *)

(** [%Y]: [\d\d\d\d] *)
Definition re_Y (s : string) : list (Z * string) :=
  match s with
  | String a (String b (String c (String d rest))) =>
      if is_digit a && is_digit b && is_digit c && is_digit d
      then [(1000 * digit_val a + 100 * digit_val b
             + 10 * digit_val c + digit_val d, rest)]
      else []
  | _ => []
  end.

(** Two characters [a] in [la..ha] and [b] in [lb..hb], read as a
    two-digit number. *)
Definition re_two (la ha lb hb : Z) (s : string) : list (Z * string) :=
  match s with
  | String a (String b rest) =>
      if in_range la ha a && in_range lb hb b
      then [(10 * digit_val a + digit_val b, rest)] else []
  | _ => []
  end.

(** One character in ['1'..'9']. *)
Definition re_one (s : string) : list (Z * string) :=
  match s with
  | String a rest =>
      if in_range 49 57 a then [(digit_val a, rest)] else []
  | _ => []
  end.

(** A space followed by one character in ['1'..'9']. *)
Definition re_space_one (s : string) : list (Z * string) :=
  match s with
  | String a (String b rest) =>
      if (code a =? 32) && in_range 49 57 b
      then [(digit_val b, rest)] else []
  | _ => []
  end.

(** [%m]: [1[0-2]|0[1-9]|[1-9]] *)
Definition re_m (s : string) : list (Z * string) :=
  re_two 49 49 48 50 s ++ re_two 48 48 49 57 s ++ re_one s.

(** [%d]: [3[0-1]|[1-2]\d|0[1-9]|[1-9]| [1-9]] *)
Definition re_d (s : string) : list (Z * string) :=
  re_two 51 51 48 49 s ++ re_two 49 50 48 57 s
  ++ re_two 48 48 49 57 s ++ re_one s ++ re_space_one s.

(** The literal [-] of the format. *)
Definition re_dash (s : string) : list string :=
  match s with
  | String a rest => if code a =? 45 then [rest] else []
  | _ => []
  end.

(** All ways to match [%Y-%m-%d] at the head of [s], in the order of
    the engine; [format_regex.match] returns the first. *)
Definition re_format (s : string) : list (ymd * string) :=
  '(y, s1) ← re_Y s;
  s2 ← re_dash s1;
  '(m, s3) ← re_m s2;
  s4 ← re_dash s3;
  '(d, s5) ← re_d s4;
  [(Ymd y m d, s5)].

(** [datetime.strptime(s, "%Y-%m-%d")]: [None] stands for the
    [ValueError] raised when the text does not match, when
    unconverted data remains after the match, or when the fields do
    not form a date. *)
Definition strptime (s : string) : option ymd :=
  match re_format s with
  | [] => None
  | (d, rest) :: _ =>
      if is_empty rest then (if valid_date d then Some d else None)
      else None
  end.

(** [strftime("%Y-%m-%d")] for a date, also the text pandas writes
    for a date-only timestamp. *)
Definition isoformat (d : ymd) : string :=
  pad4 (year d) (String "-" (pad2 (month d) (String "-" (pad2 (day d) "")))).

(** The strict form [YYYY-MM-DD]: four digits, a two-digit month
    [01..12] and a two-digit day valid for that month and year,
    nothing else. *)
Definition strict_date (s : string) : option ymd :=
  match s with
  | String y1 (String y2 (String y3 (String y4 (String h1
      (String m1 (String m2 (String h2 (String d1 (String d2
         EmptyString))))))))) =>
      let y := 1000 * digit_val y1 + 100 * digit_val y2
               + 10 * digit_val y3 + digit_val y4 in
      let m := 10 * digit_val m1 + digit_val m2 in
      let d := 10 * digit_val d1 + digit_val d2 in
      if is_digit y1 && is_digit y2 && is_digit y3 && is_digit y4
         && (code h1 =? 45) && is_digit m1 && is_digit m2
         && (code h2 =? 45) && is_digit d1 && is_digit d2
         && (1 <=? m) && (m <=? 12)
         && (1 <=? d) && (d <=? days_in_month y m)
      then Some (Ymd y m d) else None
  | _ => None
  end.

Definition is_strict_date (s : string) : bool :=
  match strict_date s with Some _ => true | None => false end.

(** A text in strict form that spells a date [datetime] can hold
    (the year [0000] is not one): the normalized form of a date. *)
Definition is_canonical (s : string) : bool :=
  match strict_date s with
  | Some d => 1 <=? year d
  | None => false
  end.

(** Chronological comparison. *)
Definition chron_compare (a b : ymd) : comparison :=
  match year a ?= year b with
  | Eq => match month a ?= month b with
          | Eq => day a ?= day b
          | c => c
          end
  | c => c
  end.

Definition chron_leb (a b : ymd) : bool :=
  match chron_compare a b with Gt => false | _ => true end.

Definition chron_ltb (a b : ymd) : bool :=
  match chron_compare a b with Lt => true | _ => false end.

End Calendar.

(** ** The [expenses] table *)

Inductive exn : Type :=
  | ValueError (msg : string).

Inductive result (A : Type) : Type :=
  | Ok (a : A)
  | Raise (e : exn).
Global Arguments Ok {A} a.
Global Arguments Raise {A} e.

Module Store.
Import Text Calendar.

(** One row of [expenses]: [id INTEGER PRIMARY KEY AUTOINCREMENT],
    [date TEXT NOT NULL], [category TEXT NOT NULL],
    [amount REAL NOT NULL], [notes TEXT]. *)
Record expense : Type := Expense {
  id : Z;
  date : string;
  category : string;
  amount : Qc;
  notes : option string
}.

Global Instance expense_eq_dec : EqDecision expense.
Proof. solve_decision. Defined.

(** The database file: the rows in insertion order and the largest
    id handed out so far (the [sqlite_sequence] entry). *)
Record database : Type := Database {
  rows : list expense;
  last_id : Z
}.

(** [init_db] on a fresh file. *)
Definition init_db : database := Database [] 0.

(** [INSERT INTO expenses (date, category, amount, notes) VALUES ...] *)
Definition insert (db : database) (d c : string) (a : Qc)
    (n : option string) : database :=
  let i := last_id db + 1 in
  Database (rows db ++ [Expense i d c a n]) i.

(** [add_expense(date_str, category, amount, notes)] *)
Definition add_expense (db : database) (date_str category : string)
    (amount : Qc) (notes : string) : result database :=
  match strptime date_str with
  | None => Raise (ValueError "Date must be in YYYY-MM-DD format.")
  | Some _ =>
      Ok (insert db date_str (strip category) amount
            (if is_empty notes then None else Some (strip notes)))
  end.

(** *** Queries *)

(** One [AND <column> <op> ?] conjunct together with the parameter
    bound to its placeholder. *)
Inductive conjunct : Type :=
  | DateGe (p : string)          (* AND date >= ? *)
  | DateLe (p : string)          (* AND date <= ? *)
  | CategoryIs (p : string)      (* AND lower(category) = lower(?) *)
  | AmountGe (p : Qc)            (* AND amount >= ? *)
  | AmountLe (p : Qc).           (* AND amount <= ? *)

(** SQLite compares [TEXT] values with the [BINARY] collation, that
    is character by character, a proper prefix first. *)
Definition text_leb (a b : string) : bool := String.leb a b.

Definition real_leb (a b : Qc) : bool := bool_decide (a ≤ b)%Qc.

Definition holds (r : expense) (c : conjunct) : bool :=
  match c with
  | DateGe p => text_leb p (date r)
  | DateLe p => text_leb (date r) p
  | CategoryIs p => String.eqb (lower (category r)) (lower p)
  | AmountGe p => real_leb p (amount r)
  | AmountLe p => real_leb (amount r) p
  end.

(** [ORDER BY date DESC, id DESC] *)
Definition precedes (r1 r2 : expense) : bool :=
  match String.compare (date r1) (date r2) with
  | Gt => true
  | Lt => false
  | Eq => id r2 <=? id r1
  end.

Definition before (r1 r2 : expense) : Prop := Is_true (precedes r1 r2).

Definition order_by (l : list expense) : list expense :=
  merge_sort (λ r1 r2, Is_true (precedes r1 r2)) l.

(** [SELECT * FROM expenses WHERE 1=1 AND ... ORDER BY date DESC,
    id DESC] *)
Definition select (where_ : list conjunct) (db : database) : list expense :=
  order_by (filter (λ r, Is_true (forallb (holds r) where_)) (rows db)).

(** *** Data frames *)

(** A row of the frame that [pd.read_sql_query] builds with
    [parse_dates=['date']]: the date column holds timestamps, [None]
    for [NaT]; a text column holds [None] for a missing value. *)
Record record : Type := MkRecord {
  r_id : Z;
  r_date : option ymd;
  r_category : option string;
  r_amount : Qc;
  r_notes : option string
}.

Global Instance record_eq_dec : EqDecision record.
Proof. solve_decision. Defined.

(** [to_datetime(col, errors="coerce")] on the texts of the date
    column: a text that denotes a calendar date gives that date, any
    other text gives [NaT].  The texts in the table have passed
    [strptime], which fixes the date they denote. *)
Definition to_datetime (s : string) : option ymd := strptime s.

Definition to_record (r : expense) : record :=
  MkRecord (id r) (to_datetime (date r)) (Some (category r)) (amount r)
    (notes r).

Definition read_sql_query (where_ : list conjunct) (db : database)
    : list record :=
  to_record <$> select where_ db.

(** [fetch_all()] *)
Definition fetch_all (db : database) : list record :=
  read_sql_query [] db.

(** Python truthiness of an optional text argument: [None] and the
    empty text are false. *)
Definition truthy (o : option string) : bool :=
  match o with
  | None => false
  | Some s => negb (is_empty s)
  end.

(** The conjunct appended for a text argument under [if arg:]. *)
Definition if_truthy (o : option string) (c : string → conjunct)
    : list conjunct :=
  match o with
  | Some s => if is_empty s then [] else [c s]
  | None => []
  end.

(** The conjunct appended for an amount under [if arg is not None:]. *)
Definition if_not_None (o : option Qc) (c : Qc → conjunct)
    : list conjunct :=
  match o with
  | Some a => [c a]
  | None => []
  end.

(** The query text and parameter list that [search_expenses]
    assembles. *)
Definition build_query (start_date end_date category : option string)
    (min_amt max_amt : option Qc) : list conjunct :=
  let query := [] in
  let query := query ++ if_truthy start_date DateGe in
  let query := query ++ if_truthy end_date DateLe in
  let query := query ++ if_truthy category CategoryIs in
  let query := query ++ if_not_None min_amt AmountGe in
  let query := query ++ if_not_None max_amt AmountLe in
  query.

(** [search_expenses(start_date, end_date, category, min_amt, max_amt)] *)
Definition search_expenses (db : database)
    (start_date end_date category : option string)
    (min_amt max_amt : option Qc) : list record :=
  read_sql_query
    (build_query start_date end_date category min_amt max_amt) db.

(** *** Invariants of the table *)

(** [id] is the primary key. *)
Definition primary_key (db : database) : Prop :=
  NoDup (id <$> rows db).

(** Every id in the table was handed out by the sequence. *)
Definition sequenced (db : database) : Prop :=
  0 ≤ last_id db ∧ Forall (λ r, 1 ≤ id r ≤ last_id db) (rows db).

(** Every stored date is in normalized form. *)
Definition normalized (db : database) : Prop :=
  Forall (λ r, is_canonical (date r) = true) (rows db).

End Store.

(** ** The query contract, in the words of the specification *)

Module QuerySpec.
Import Text Calendar Store.

(** The filter options; [None] is an absent option. *)
Record options : Type := Options {
  start_date : option string;
  end_date : option string;
  in_category : option string;
  min_amount : option Qc;
  max_amount : option Qc
}.

Definition no_options : options := Options None None None None None.

Definition is_upper (c : ascii) : bool := in_range 65 90 c.

(** Two characters that are equal or the two cases of one letter. *)
Definition same_letter (a b : ascii) : bool :=
  (code a =? code b)
  || (is_upper a && (code b =? code a + 32))
  || (is_upper b && (code a =? code b + 32)).

(** Case-insensitive exact match. *)
Fixpoint same_text (s t : string) : bool :=
  match s, t with
  | EmptyString, EmptyString => true
  | String a s', String b t' => same_letter a b && same_text s' t'
  | _, _ => false
  end.

(** The single constraints on a record. *)
Definition on_or_after (bound : string) (r : record) : bool :=
  match strict_date bound, r_date r with
  | Some b, Some d => chron_leb b d
  | _, _ => false
  end.

Definition on_or_before (bound : string) (r : record) : bool :=
  match strict_date bound, r_date r with
  | Some b, Some d => chron_leb d b
  | _, _ => false
  end.

Definition has_category (c : string) (r : record) : bool :=
  match r_category r with
  | Some x => same_text x c
  | None => false
  end.

Definition at_least (a : Qc) (r : record) : bool :=
  bool_decide (a ≤ r_amount r)%Qc.

Definition at_most (a : Qc) (r : record) : bool :=
  bool_decide (r_amount r ≤ a)%Qc.

(** The constraints a filter puts on a record: one for each option
    that is present. *)
Definition constraints (f : options) : list (record → bool) :=
  option_list (on_or_after <$> start_date f)
  ++ option_list (on_or_before <$> end_date f)
  ++ option_list (has_category <$> in_category f)
  ++ option_list (at_least <$> min_amount f)
  ++ option_list (at_most <$> max_amount f).

(** A record satisfies a filter when it satisfies every present
    constraint. *)
Definition satisfies (f : options) (r : record) : bool :=
  forallb (λ c, c r) (constraints f).

(** The values a filter may carry under the data model: a date
    bound is a date in normalized form, a category is a non-empty
    text. *)
Definition well_formed (f : options) : bool :=
  from_option is_canonical true (start_date f)
  && from_option is_canonical true (end_date f)
  && from_option (λ c, negb (is_empty c)) true (in_category f).

(** [g] has every constraint of [f], and possibly more. *)
Definition adds_to {A} (o o' : option A) : Prop := o = None ∨ o = o'.

Definition refines (f g : options) : Prop :=
  adds_to (start_date f) (start_date g)
  ∧ adds_to (end_date f) (end_date g)
  ∧ adds_to (in_category f) (in_category g)
  ∧ adds_to (min_amount f) (min_amount g)
  ∧ adds_to (max_amount f) (max_amount g).

(** [search_expenses] called with the options of [f]. *)
Definition search (db : database) (f : options) : list record :=
  search_expenses db (start_date f) (end_date f) (in_category f)
    (min_amount f) (max_amount f).

(** Display order: date descending, ties by id descending. *)
Definition newer (r1 r2 : record) : Prop :=
  match r_date r1, r_date r2 with
  | Some d1, Some d2 =>
      match chron_compare d1 d2 with
      | Gt => True
      | Eq => r_id r2 < r_id r1
      | Lt => False
      end
  | _, _ => False
  end.

End QuerySpec.

(** ** Aggregation *)

Module Analytics.
Import Text Calendar Store.

(** A pandas [Series]: index labels with their values, in order. *)
Abbreviation series K := (list (K * Qc)).

Definition values {K} (s : series K) : list Qc := snd <$> s.

(** [Series.sum()] *)
Definition sum (l : list Qc) : Qc := foldr Qcplus 0%Qc l.

(** [total_spending(df)]: [df['amount'].sum()] *)
Definition total_spending (df : list record) : Qc :=
  sum (r_amount <$> df).

Section groupby.
Context `{Countable K}.
Variable key_leb : K → K → bool.

(** Adding one row to the running sum of its group. *)
Definition accumulate (dropna : bool) (key : record → option K)
    (m : gmap (option K) Qc) (r : record) : gmap (option K) Qc :=
  match key r with
  | None =>
      if dropna then m
      else <[None := (default 0 (m !! None) + r_amount r)%Qc]> m
  | Some k =>
      <[Some k := (default 0 (m !! Some k) + r_amount r)%Qc]> m
  end.

Definition group_sums (dropna : bool) (key : record → option K)
    (df : list record) : gmap (option K) Qc :=
  foldl (accumulate dropna key) ∅ df.

(** Order of the group labels: ascending, a missing label last. *)
Definition label_leb (a b : option K) : bool :=
  match a, b with
  | Some x, Some y => key_leb x y
  | Some _, None => true
  | None, Some _ => false
  | None, None => true
  end.

(** [Series.sort_index()] *)
Definition sort_index (s : series (option K)) : series (option K) :=
  merge_sort (λ a b, Is_true (label_leb a.1 b.1)) s.

(** [df.groupby(key, dropna=dropna)['amount'].sum()]: one entry per
    group, in the order of the group labels. *)
Definition groupby_sum (dropna : bool) (key : record → option K)
    (df : list record) : series (option K) :=
  sort_index (map_to_list (group_sums dropna key df)).

(** The sum of the entries of a table of group sums. *)
Definition map_total (m : gmap (option K) Qc) : Qc :=
  sum (values (map_to_list m)).

(** The rows that [groupby] counts. *)
Definition counted (dropna : bool) (key : record → option K)
    (r : record) : bool :=
  match key r with
  | Some _ => true
  | None => negb dropna
  end.

(** The counted rows of one group. *)
Definition counted_members (dropna : bool) (key : record → option K)
    (k : option K) (df : list record) : list record :=
  filter (λ r, key r = k ∧ Is_true (counted dropna key r)) df.

(** The order of the entries by their labels. *)
Definition label_le (a b : option K * Qc) : Prop :=
  Is_true (label_leb a.1 b.1).
End groupby.

(** Descending order of the values. *)
Definition value_ge {K} (a b : K * Qc) : Prop := (b.2 ≤ a.2)%Qc.

Global Instance value_ge_dec {K} : RelDecision (@value_ge K).
Proof. intros a b. unfold value_ge. apply _. Defined.

(** [Series.sort_values(ascending=False)] *)
Definition sort_values_desc {K} (s : series K) : series K :=
  merge_sort value_ge s.

(** [spending_by_category(df)] *)
Definition spending_by_category (df : list record)
    : series (option string) :=
  sort_values_desc (groupby_sum String.leb false r_category df).

(** A monthly [Period]. *)
Definition period : Type := Z * Z.

(** [.dt.to_period('M')] *)
Definition to_period (d : option ymd) : option period :=
  (λ d, (year d, month d)) <$> d.

Definition period_leb (a b : period) : bool :=
  (a.1 <? b.1) || ((a.1 =? b.1) && (a.2 <=? b.2)).

(** [str] of a monthly period and of a missing one. *)
Definition period_str (p : option period) : string :=
  match p with
  | Some (y, m) => pad4 y (String "-" (pad2 m ""))
  | None => "NaT"
  end.

(** The series that [monthly_trend] holds before it converts the
    index to text: [df2.groupby('month')['amount'].sum().sort_index()];
    [pd.to_datetime] leaves a timestamp column as it is. *)
Definition monthly_periods (df : list record) : series (option period) :=
  let month := λ r, to_period (r_date r) in
  sort_index period_leb (groupby_sum period_leb true month df).

(** [monthly_trend(df)] *)
Definition monthly_trend (df : list record) : series string :=
  (λ e, (period_str e.1, e.2)) <$> monthly_periods df.

(** The months of [monthly_trend] as periods. *)
Definition month_series (df : list record) : series period :=
  (λ e, (default (0, 0)%Z e.1, e.2)) <$> monthly_periods df.

(** *** The aggregates, in the words of the specification *)

(** The records of one group, and the sum of their amounts. *)
Definition members `{EqDecision K} (key : record → option K)
    (k : option K) (df : list record) : list record :=
  filter (λ r, key r = k) df.

Definition group_total `{EqDecision K} (key : record → option K)
    (k : option K) (df : list record) : Qc :=
  sum (r_amount <$> members key k df).

Definition month_of (r : record) : option period := to_period (r_date r).

(** Strictly earlier month. *)
Definition period_lt (a b : period) : Prop :=
  a.1 < b.1 ∨ (a.1 = b.1 ∧ a.2 < b.2).

(** A text of the form [YYYY-MM]. *)
Definition is_year_month (s : string) : bool :=
  match s with
  | String y1 (String y2 (String y3 (String y4 (String h
      (String m1 (String m2 EmptyString)))))) =>
      is_digit y1 && is_digit y2 && is_digit y3 && is_digit y4
      && (code h =? 45) && is_digit m1 && is_digit m2
      && (1 <=? 10 * digit_val m1 + digit_val m2)
      && (10 * digit_val m1 + digit_val m2 <=? 12)
  | _ => false
  end.

(** Every timestamp of the frame is a date of the calendar. *)
Definition dates_valid (df : list record) : Prop :=
  Forall (λ r, from_option (λ d, valid_date d = true) True (r_date r)) df.

(** No date of the frame is missing. *)
Definition dated (df : list record) : Prop :=
  Forall (λ r, is_Some (r_date r)) df.

End Analytics.

(** ** Chart and CSV adapters *)

(** What a call leaves behind outside the return value. *)
Inductive plt_call : Type :=
  | Figure (w h : Z)
  | PlotPie (data : list Qc)
  | PlotLine (data : list Qc)
  | XLabel (s : string)
  | YLabel (s : string)
  | Title (s : string)
  | Grid
  | TightLayout
  | Savefig (path : string)
  | Close.

Inductive effect : Type :=
  | Stdout (text : string)
  | Plt (call : plt_call)
  | FileWritten (name content : string).

Definition is_plt (e : effect) : bool :=
  match e with Plt _ => true | _ => false end.

Module Charts.
Import Analytics.

(** [plot_pie_category(series, out_path)]: the effects in program
    order and the returned path ([None] for Python's [None]). *)
Definition plot_pie_category {K} (s : series K) (out_path : string)
    : list effect * option string :=
  if bool_decide (s = [])
  then ([Stdout "No data to plot for category pie chart."], None)
  else ([Plt (Figure 6 6); Plt (PlotPie (values s));
         Plt (Title "Spending by Category"); Plt TightLayout;
         Plt (Savefig out_path); Plt Close], Some out_path).

(** [plot_monthly_trend(series, out_path)] *)
Definition plot_monthly_trend {K} (s : series K) (out_path : string)
    : list effect * option string :=
  if bool_decide (s = [])
  then ([Stdout "No data to plot for monthly trend."], None)
  else ([Plt (Figure 8 4); Plt (PlotLine (values s));
         Plt (XLabel "Month"); Plt (YLabel "Total Spending");
         Plt (Title "Monthly Spending Trend"); Plt Grid;
         Plt TightLayout; Plt (Savefig out_path); Plt Close],
        Some out_path).
End Charts.

Module Csv.
Import Text Calendar Store.

Definition comma : ascii := chr 44.
Definition dquote : ascii := chr 34.
Definition newline : ascii := chr 10.

Definition is_special (c : ascii) : bool :=
  (code c =? 44) || (code c =? 34) || (code c =? 10) || (code c =? 13).

(** The field with every quote character doubled, followed by [k]. *)
Fixpoint escape (s : string) (k : string) : string :=
  match s with
  | EmptyString => k
  | String c s' =>
      if code c =? 34 then String c (String c (escape s' k))
      else String c (escape s' k)
  end.

(** One field under [QUOTE_MINIMAL]: quoted only when it holds the
    delimiter, the quote character or a line break. *)
Definition write_field (s : string) (k : string) : string :=
  if contains is_special s
  then String dquote (escape s (String dquote k))
  else s +:+ k.

(** The fields of a row, separated by the delimiter and closed by
    the line terminator, in front of the text [k]. *)
Fixpoint write_fields (fields : list string) (k : string) : string :=
  match fields with
  | [] => String newline k
  | [f] => write_field f (String newline k)
  | f :: fs => write_field f (String comma (write_fields fs k))
  end.

(** [writer.writerow(fields)] in front of the text [k]; a row that
    consists of one empty field is written as a pair of quotes. *)
Definition write_row (fields : list string) (k : string) : string :=
  match fields with
  | [EmptyString] => String dquote (String dquote (String newline k))
  | _ => write_fields fields k
  end.

Definition header : list string :=
  ["id"; "date"; "category"; "amount"; "notes"].

Section to_csv.
(** The text pandas writes for a float. *)
Variable float_repr : Qc → string.

(** The cells of one record; a missing value is written as the
    empty text ([na_rep='']), a date-only timestamp as
    [YYYY-MM-DD]. *)
Definition cells (r : record) : list string :=
  [ pretty (r_id r);
    from_option isoformat "" (r_date r);
    default "" (r_category r);
    float_repr (r_amount r);
    default "" (r_notes r) ].

(** [df.to_csv(index=False)]: the text written to the file. *)
Definition to_csv (df : list record) : string :=
  write_row header (foldr (λ r k, write_row (cells r) k) "" df).

(** [export_csv(df, filename)] *)
Definition export_csv (df : list record) (filename : string)
    : list effect * string :=
  ([FileWritten filename (to_csv df)], filename).
End to_csv.

(** *** Reading a CSV text back

    A reader for the same dialect, after the state machine of
    [csv.reader]: it is used to say which rows and fields a written
    text holds. *)
Inductive reader_state : Type :=
  | StartField | InField | InQuoted | QuoteInQuoted.

(** The reader in state [st], with the text of the current field,
    the earlier fields of the current row and the earlier rows. *)
Fixpoint read (st : reader_state) (field : string) (row : list string)
    (rows : list (list string)) (s : string)
    : option (list (list string)) :=
  match s with
  | EmptyString =>
      match st with
      | StartField =>
          if bool_decide (row = []) then Some rows
          else Some (rows ++ [row ++ [field]])
      | InField | QuoteInQuoted => Some (rows ++ [row ++ [field]])
      | InQuoted => None
      end
  | String c s' =>
      match st with
      | StartField =>
          if code c =? 34 then read InQuoted "" row rows s'
          else if code c =? 44
          then read StartField "" (row ++ [""]) rows s'
          else if code c =? 10
          then read StartField "" []
                 (rows ++ [if bool_decide (row = []) then []
                           else row ++ [""]]) s'
          else read InField (String c "") row rows s'
      | InField =>
          if code c =? 44
          then read StartField "" (row ++ [field]) rows s'
          else if code c =? 10
          then read StartField "" [] (rows ++ [row ++ [field]]) s'
          else read InField (field +:+ String c "") row rows s'
      | InQuoted =>
          if code c =? 34 then read QuoteInQuoted field row rows s'
          else read InQuoted (field +:+ String c "") row rows s'
      | QuoteInQuoted =>
          if code c =? 34
          then read InQuoted (field +:+ String c "") row rows s'
          else if code c =? 44
          then read StartField "" (row ++ [field]) rows s'
          else if code c =? 10
          then read StartField "" [] (rows ++ [row ++ [field]]) s'
          else read InField (field +:+ String c "") row rows s'
      end
  end.

(** What the reader does when the field [field] ends at the
    delimiter or line terminator [c]. *)
Definition finish (c : ascii) (field : string) (row : list string)
    (rows : list (list string)) (k : string)
    : option (list (list string)) :=
  if code c =? 44 then read StartField "" (row ++ [field]) rows k
  else read StartField "" [] (rows ++ [row ++ [field]]) k.

Definition ends_field (c : ascii) : Prop := code c = 44 ∨ code c = 10.

(** The rows of a CSV text. *)
Definition read_csv (s : string) : option (list (list string)) :=
  read StartField "" [] [] s.

Definition is_newline (c : ascii) : bool := code c =? 10.

(** Number of line terminators in a text. *)
Definition line_count (s : string) : nat :=
  count (λ c, code c =? 10) s.

(** A float formatter for amounts with a short decimal expansion:
    integer part, point, and the decimals (at least one), as Python
    prints such floats. *)
Fixpoint decimals (fuel : nat) (rem den : Z) : string :=
  match fuel with
  | O => ""
  | S fuel' =>
      let r := rem * 10 in
      String (digit_char (r `div` den))
        (if r `mod` den =? 0 then "" else decimals fuel' (r `mod` den) den)
  end.

Definition decimal_repr (a : Qc) : string :=
  let n := Qnum a in
  let d := Z.pos (Qden a) in
  (if n <? 0 then "-" else "")
  +:+ pretty (Z.abs n `div` d) +:+ "." +:+ decimals 17 (Z.abs n `mod` d) d.

End Csv.

(** ** The interactive add command *)

Module Console.
Import Text Calendar Store.

(** The process state that [prompt_add] touches: the database file,
    the lines still to be typed, what was printed so far (latest
    first) and the current date. *)
Record world : Type := World {
  db : database;
  stdin : list string;
  stdout : list string;
  today : ymd
}.

(** A command either finishes normally or is cut short by end of
    input ([EOFError], which [prompt_add] does not catch). *)
Inductive outcome : Type := Done | EOFError.

Definition print (text : string) (w : world) : world :=
  World (db w) (stdin w) (text :: stdout w) (today w).

(** [input(prompt)]: the prompt is printed and one line is read. *)
Definition input (prompt : string) (w : world) : option string * world :=
  match stdin w with
  | [] => (None, print prompt w)
  | l :: ls => (Some l, World (db w) ls (prompt :: stdout w) (today w))
  end.

Definition nl : string := String (chr 10) "".

Section prompt_add.
(** [float(text)]: [None] for a raised [ValueError]. *)
Variable float : string → option Qc.

Definition ask_notes (date category : string) (amt : Qc) (w : world)
    : outcome * world :=
  match input "Notes (optional): " w with
  | (None, w) => (EOFError, w)
  | (Some l, w) =>
      let notes := strip l in
      match add_expense (db w) date category amt notes with
      | Ok db' =>
          (Done, print "✔ Expense added."
                   (World db' (stdin w) (stdout w) (today w)))
      | Raise (ValueError msg) =>
          (Done, print ("Error adding expense: " +:+ msg) w)
      end
  end.

Definition ask_amount (date category : string) (w : world)
    : outcome * world :=
  match input "Amount (numeric): " w with
  | (None, w) => (EOFError, w)
  | (Some l, w) =>
      let amount := strip l in
      if String.eqb (lower amount) "q" then (Done, w)
      else match float amount with
           | None => (Done, print "Invalid amount. Aborting." w)
           | Some amt => ask_notes date category amt w
           end
  end.

Definition ask_category (date : string) (w : world) : outcome * world :=
  match input "Category (e.g., Food, Travel): " w with
  | (None, w) => (EOFError, w)
  | (Some l, w) =>
      let category := strip l in
      if String.eqb (lower category) "q" || is_empty category
      then (Done, print "Cancelled or invalid category." w)
      else ask_amount date category w
  end.

(** [prompt_add()] *)
Definition prompt_add (w : world) : outcome * world :=
  let w := print (nl +:+ "Add new expense (enter 'q' to cancel)" +:+ nl) w in
  match input "Date (YYYY-MM-DD) [default: today]: " w with
  | (None, w) => (EOFError, w)
  | (Some l, w) =>
      let date := strip l in
      if String.eqb (lower date) "q" then (Done, w)
      else
        let date := if is_empty date then isoformat (today w) else date in
        ask_category date w
  end.
End prompt_add.

End Console.

(** ** The texts that the date check accepts *)

Module Accepted.
Import Text Calendar.

(** A number below ten as one digit, and as a space and one digit. *)
Definition one_digit (n : Z) : string := String (digit_char n) "".

Definition space_digit (n : Z) : string := String " " (one_digit n).

(** The ways to write a month and a day that [%m] and [%d] read. *)
Definition month_texts (m : Z) : list string :=
  pad2 m "" :: (if m <? 10 then [one_digit m] else []).

Definition day_texts (d : Z) : list string :=
  pad2 d "" :: (if d <? 10 then [one_digit d; space_digit d] else []).

(** The ways to write a date: the year in four digits, then month and
    day in any of their ways, separated by [-]. *)
Definition date_texts (d : ymd) : list string :=
  ms ← month_texts (month d);
  ds ← day_texts (day d);
  [pad4 (year d) (String "-" (ms +:+ String "-" ds))].

End Accepted.

(** ** Trimmed texts *)

Module Trimmed.
Import Text.

(** A text that does not begin with white space. *)
Definition starts_clean (s : string) : Prop :=
  match s with
  | EmptyString => True
  | String c _ => is_space c = false
  end.

End Trimmed.

(** ** The interactive shell *)

Module Shell.
Import Text Calendar Store Analytics Charts Csv Console.

(** The state of the process: the console world of [prompt_add]
    together with the plotting calls made and the files written so far
    (latest first). *)
Record state : Type := State {
  console : world;
  outputs : list effect
}.

(** [print(text)] *)
Definition say (text : string) (st : state) : state :=
  State (print text (console st)) (outputs st).

(** The effects of an adapter, in program order. *)
Definition perform (es : list effect) (st : state) : state :=
  foldl (λ st e,
           match e with
           | Stdout text => say text st
           | _ => State (console st) (e :: outputs st)
           end) st es.

(** [input(prompt).strip()], followed by the rest of the command;
    end of input raises [EOFError], which no command catches. *)
Definition with_input (prompt : string)
    (k : string → state → outcome * state) (st : state)
    : outcome * state :=
  match input prompt (console st) with
  | (None, w) => (EOFError, State w (outputs st))
  | (Some l, w) => k (strip l) (State w (outputs st))
  end.

(** [text or None] *)
Definition or_None (text : string) : option string :=
  if is_empty text then None else Some text.

(** [sep.join(texts)] *)
Fixpoint join (sep : string) (texts : list string) : string :=
  match texts with
  | [] => ""
  | [t] => t
  | t :: ts => t +:+ sep +:+ join sep ts
  end.

(** Lines of text, each closed by a line break. *)
Definition unlines (ls : list string) : string :=
  foldr (λ l k, l +:+ nl +:+ k) "" ls.

(** [MENU] *)
Definition MENU : string :=
  nl +:+ unlines
    [ "Personal Expense Tracker";
      "------------------------";
      "1. Add expense";
      "2. View all expenses";
      "3. Search / Filter expenses";
      "4. Analytics (totals, charts)";
      "5. Export to CSV";
      "6. Help";
      "7. Quit" ].

(** The text of [print_help]. *)
Definition HELP : string :=
  nl +:+ unlines
    [ "Quick usage tips:";
      "- Dates must be YYYY-MM-DD (you can leave blank when adding to use today's date)";
      "- Categories are case-insensitive for searching, but stored as entered";
      "- Charts are saved as PNG files in the current folder:";
      "    - category_pie.png";
      "    - monthly_trend.png";
      "- Export creates a CSV file readable by Excel / Google Sheets" ].

(** How the main loop ends: by the quit command, by end of input, or
    not within the given number of rounds. *)
Inductive ending : Type := ByQuit | Eof | OutOfFuel.

Section shell.
(** [float(text)]: [None] for a raised [ValueError]. *)
Variable float : string → option Qc.
(** [df.to_string(index=False)] and [series.to_string()]. *)
Variable frame_to_string : list record → string.
Variable series_to_string : series (option string) → string.
(** The format [{total:.2f}]. *)
Variable format_2f : Qc → string.
(** The text pandas writes for a float in a CSV file. *)
Variable float_repr : Qc → string.

(** [display_df(df, limit)] *)
Definition display_df (df : list record) (limit : option nat)
    (st : state) : state :=
  if bool_decide (df = []) then say "No records found." st
  else
    let df := match limit with
              | Some (S n) => take (S n) df
              | _ => df
              end in
    say (frame_to_string df) st.

(** [prompt_view_all()] *)
Definition prompt_view_all (st : state) : outcome * state :=
  (Done, display_df (fetch_all (db (console st))) None st).

(** [float(text) if text else None] *)
Definition float_or_None (o : option string) : option (option Qc) :=
  match o with
  | None => Some None
  | Some text => Some <$> float text
  end.

(** [prompt_search()] *)
Definition prompt_search (st : state) : outcome * state :=
  let st :=
    say (nl +:+ "Search / Filter (press ENTER to skip a filter)" +:+ nl) st in
  with_input "Start date (YYYY-MM-DD): " (λ sdate,
  with_input "End date (YYYY-MM-DD): " (λ edate,
  with_input "Category (exact match): " (λ cat,
  with_input "Min amount: " (λ mina,
  with_input "Max amount: " (λ maxa st,
    match float_or_None (or_None mina), float_or_None (or_None maxa) with
    | Some mina_val, Some maxa_val =>
        (Done,
         display_df
           (search_expenses (db (console st)) (or_None sdate)
              (or_None edate) (or_None cat) mina_val maxa_val)
           None st)
    | _, _ => (Done, say "Invalid amount filters." st)
    end))))) st.

(** The paths kept by [[p for p in [pie_path, trend_path] if p]]. *)
Definition saved_paths (ps : list (option string)) : list string :=
  omap (λ o, o ≫= or_None) ps.

(** [prompt_analytics()] *)
Definition prompt_analytics (st : state) : outcome * state :=
  let df := fetch_all (db (console st)) in
  if bool_decide (df = [])
  then (Done, say "No data available for analytics." st)
  else
    let total := total_spending df in
    let st :=
      say (nl +:+ "Total spending (all time): " +:+ format_2f total +:+ nl)
        st in
    let st := say "Spending by category:" st in
    let by_cat := spending_by_category df in
    let st := say (series_to_string by_cat) st in
    let '(es, pie_path) := plot_pie_category by_cat "category_pie.png" in
    let st := perform es st in
    let trend_series := monthly_trend df in
    let '(es, trend_path) :=
      plot_monthly_trend trend_series "monthly_trend.png" in
    let st := perform es st in
    let st :=
      say (nl +:+ "Charts saved as: "
           +:+ join ", " (saved_paths [pie_path; trend_path])) st in
    (Done, say "You can open these PNG files in your folder." st).

(** [prompt_export()] *)
Definition prompt_export (st : state) : outcome * state :=
  let df := fetch_all (db (console st)) in
  if bool_decide (df = []) then (Done, say "No data to export." st)
  else
    with_input "Export filename [default: expenses_export.csv]: "
      (λ l st,
         let fname := if is_empty l then "expenses_export.csv" else l in
         let '(es, _) := export_csv float_repr df fname in
         (Done, say ("Exported to " +:+ fname) (perform es st))) st.

(** [print_help()] *)
Definition print_help (st : state) : outcome * state :=
  (Done, say HELP st).

(** [prompt_add()], on the console world. *)
Definition prompt_add (st : state) : outcome * state :=
  let '(o, w) := Console.prompt_add float (console st) in
  (o, State w (outputs st)).

(** The quit test of the main loop. *)
Definition is_quit (choice : string) : bool :=
  String.eqb choice "7"
  || String.eqb (lower choice) "q" || String.eqb (lower choice) "quit"
  || String.eqb (lower choice) "exit".

(** The commands [1] to [6] of the menu. *)
Definition command (choice : string) : option (state → outcome * state) :=
  if String.eqb choice "1" then Some prompt_add
  else if String.eqb choice "2" then Some prompt_view_all
  else if String.eqb choice "3" then Some prompt_search
  else if String.eqb choice "4" then Some prompt_analytics
  else if String.eqb choice "5" then Some prompt_export
  else if String.eqb choice "6" then Some print_help
  else None.

(** The [while True] loop of [main_loop], for at most [fuel] rounds. *)
Fixpoint loop (fuel : nat) (st : state) : ending * state :=
  match fuel with
  | O => (OutOfFuel, st)
  | S fuel =>
      match input "Enter choice [1-7]: " (console (say MENU st)) with
      | (None, w) => (Eof, State w (outputs st))
      | (Some l, w) =>
          let choice := strip l in
          let st := State w (outputs st) in
          match command choice with
          | Some run =>
              match run st with
              | (Done, st) => loop fuel st
              | (EOFError, st) => (Eof, st)
              end
          | None =>
              if is_quit choice
              then (ByQuit,
                    say "Bye — remember to commit your changes if you added data!"
                      st)
              else loop fuel (say "Invalid choice. Try again." st)
          end
      end
  end.

(** [main_loop()]: [init_db] creates the table only when it is
    missing, and the database of the world has it. *)
Definition main_loop (fuel : nat) (st : state) : ending * state :=
  loop fuel st.

End shell.

End Shell.

(** ** What a session may change *)

Module ShellSpec.
Import Store Console Shell.

(** The world [w'] is the world [w] after some more interaction: rows
    were only appended to the table, lines were only added to the
    output, input was only consumed, the date is the same, and the
    table still has its key. *)
Record world_grows (w w' : world) : Prop := WorldGrows {
  grows_rows : rows (db w) `prefix_of` rows (db w');
  grows_stdout : stdout w `suffix_of` stdout w';
  grows_stdin : stdin w' `suffix_of` stdin w;
  grows_today : today w' = today w;
  grows_key :
    primary_key (db w) → sequenced (db w) →
    primary_key (db w') ∧ sequenced (db w')
}.

(** The same for the state of the shell; plotting calls and files are
    only added. *)
Definition grows (st st' : state) : Prop :=
  world_grows (console st) (console st')
  ∧ outputs st `suffix_of` outputs st'.

(** A step that leaves the table as it is. *)
Definition reads_only (st st' : state) : Prop :=
  db (console st') = db (console st).

(** The last line printed is the success message of [prompt_add]. *)
Definition reported (w : world) : Prop :=
  head (stdout w) = Some "✔ Expense added.".

(** The table of [w'] is the table of [w] with one more row, which has
    the next id, a date that the date check accepts and a category
    that is trimmed and not empty. *)
Definition inserted (w w' : world) : Prop :=
  ∃ e, rows (db w') = rows (db w) ++ [e]
       ∧ id e = last_id (db w) + 1
       ∧ last_id (db w') = id e
       ∧ is_Some (Calendar.strptime (date e))
       ∧ category e ≠ ""
       ∧ Text.strip (category e) = category e.

(** What [prompt_add] may do: report and insert, or neither. *)
Definition add_outcome (w w' : world) : Prop :=
  (reported w' ∧ inserted w w') ∨ (¬ reported w' ∧ db w' = db w).

End ShellSpec.

(** ** The scenario of the specification *)

(** The three expenses of the specification's scenario, as
    [add_expense] stores them. *)
Definition ledger : Store.database :=
  Store.Database
    [ Store.Expense 1 "2024-01-15" "Food" (Qc_of_Z 20) None;
      Store.Expense 2 "2024-01-20" "Food" (Qc_of_Z 30) None;
      Store.Expense 3 "2024-02-01" "Travel" (Qc_of_Z 100) None ]
    3.

(** A session at the table of the scenario: the lines typed at the
    console, nothing printed yet, on 2 March 2024. *)
Definition session (lines : list string) : Shell.state :=
  Shell.State (Console.World ledger lines [] (Calendar.Ymd 2024 3 2)) [].

(** Stand-ins for the library functions of a session: [float] on the
    texts that are whole numbers, and one fixed text for a printed
    table or number. *)
Fixpoint digits_value (s : string) (acc : Z) : option Z :=
  match s with
  | EmptyString => Some acc
  | String c r =>
      if Text.is_digit c then digits_value r (10 * acc + Text.digit_val c)
      else None
  end.

Definition whole (s : string) : option Qc :=
  if Text.is_empty s then None else Qc_of_Z <$> digits_value s 0.

Definition fixed_text {A} (_ : A) : string := "(text)".

(** * Properties *)

(** ** Text *)

Module TextFacts.
Import Text.

Lemma code_range c : 0 ≤ code c < 256.
Proof.
  unfold code. pose proof (N_ascii_bounded c). lia.
Qed.

Lemma code_chr n : 0 ≤ n < 256 → code (chr n) = n.
Proof.
  intros Hn. unfold code, chr.
  rewrite N_ascii_embedding by lia. lia.
Qed.

Lemma chr_code c : chr (code c) = c.
Proof.
  unfold code, chr. rewrite N2Z.id. apply ascii_N_embedding.
Qed.

Lemma code_inj a b : code a = code b → a = b.
Proof.
  unfold code. intros Hab.
  rewrite <- (ascii_N_embedding a), <- (ascii_N_embedding b).
  f_equal. lia.
Qed.

Lemma ascii_compare_code a b : Ascii.compare a b = (code a ?= code b).
Proof. unfold Ascii.compare, code. by rewrite N2Z.inj_compare. Qed.

Lemma is_digit_spec c : is_digit c = true ↔ 48 ≤ code c ≤ 57.
Proof. unfold is_digit. rewrite andb_true_iff. lia. Qed.

Lemma in_range_spec lo hi c : in_range lo hi c = true ↔ lo ≤ code c ≤ hi.
Proof. unfold in_range. rewrite andb_true_iff. lia. Qed.

Lemma is_empty_spec s : is_empty s = true ↔ s = "".
Proof. by destruct s. Qed.

Lemma code_digit_char n : code (digit_char n) = 48 + n `mod` 10.
Proof.
  unfold digit_char. apply code_chr.
  pose proof (Z.mod_pos_bound n 10). lia.
Qed.

Lemma rstrip_empty_iff s : rstrip s = "" ↔ all_space s = true.
Proof.
  induction s as [|c s IH]; simpl; [done|].
  destruct (is_space c); simpl.
  - destruct (rstrip s) eqn:Hr; simpl.
    + split; [intros _; by apply IH | done].
    + split; [done | intros Hs; by apply IH in Hs].
  - split; done.
Qed.

Lemma all_space_lstrip s : all_space (lstrip s) = all_space s.
Proof.
  induction s as [|c s IH]; simpl; [done|].
  destruct (is_space c) eqn:Hc; simpl; [done|by rewrite Hc].
Qed.

(** [strip] returns the empty text exactly on texts made of white
    space only. *)
Lemma strip_empty_iff s : strip s = "" ↔ all_space s = true.
Proof. unfold strip. by rewrite rstrip_empty_iff, all_space_lstrip. Qed.

End TextFacts.

(** ** Dates *)

Module CalendarFacts.
Import Text Calendar TextFacts.

(** The shape of a text in strict form. *)
Lemma strict_date_inv s d :
  strict_date s = Some d →
  ∃ y1 y2 y3 y4 m1 m2 d1 d2,
    s = String y1 (String y2 (String y3 (String y4 (String "-"
          (String m1 (String m2 (String "-" (String d1 (String d2
             ""))))))))) ∧
    d = Ymd (1000 * digit_val y1 + 100 * digit_val y2
             + 10 * digit_val y3 + digit_val y4)
            (10 * digit_val m1 + digit_val m2)
            (10 * digit_val d1 + digit_val d2) ∧
    Forall (λ c, 48 ≤ code c ≤ 57) [y1; y2; y3; y4; m1; m2; d1; d2] ∧
    1 ≤ month d ≤ 12 ∧ 1 ≤ day d ≤ days_in_month (year d) (month d).
Proof.
  destruct s as [|y1 [|y2 [|y3 [|y4 [|h1 [|m1 [|m2 [|h2 [|d1 [|d2 [|]]]]]]]]]]];
    try discriminate.
  unfold strict_date.
  destruct (_ && _) eqn:E; [|discriminate]. intros [= <-].
  repeat (apply andb_prop in E as [E ?]).
  repeat match goal with
         | H : is_digit _ = true |- _ => apply is_digit_spec in H
         | H : (_ =? _) = true |- _ => apply Z.eqb_eq in H
         | H : (_ <=? _) = true |- _ => apply Z.leb_le in H
         end.
  assert (h1 = "-"%char) as -> by (by apply code_inj).
  assert (h2 = "-"%char) as -> by (by apply code_inj).
  exists y1, y2, y3, y4, m1, m2, d1, d2. simpl.
  split_and!; [done|done|repeat constructor; lia|lia..].
Qed.

Lemma days_in_month_bounds y m : 28 ≤ days_in_month y m ≤ 31.
Proof. unfold days_in_month. repeat case_match; lia. Qed.

(** On texts in strict form the order of the texts is the order of
    the dates. *)
Lemma strict_date_compare s1 s2 d1 d2 :
  strict_date s1 = Some d1 → strict_date s2 = Some d2 →
  String.compare s1 s2 = chron_compare d1 d2.
Proof.
  intros (a1&a2&a3&a4&a5&a6&a7&a8&->&->&Ha&_)%strict_date_inv
         (b1&b2&b3&b4&b5&b6&b7&b8&->&->&Hb&_)%strict_date_inv.
  repeat match goal with
         | H : Forall _ (_ :: _) |- _ => apply Forall_cons in H as [? H]
         end.
  unfold chron_compare, digit_val; simpl.
  rewrite !ascii_compare_code.
  repeat match goal with
         | |- context [code ?a ?= code ?b] =>
             destruct (Z.compare_spec (code a) (code b))
         | |- context [?a ?= ?b] =>
             destruct (Z.compare_spec a b); try lia
         end; try reflexivity; try lia.
Qed.

Lemma digit_cases c :
  48 ≤ code c ≤ 57 →
  c ∈ ["0"; "1"; "2"; "3"; "4"; "5"; "6"; "7"; "8"; "9"]%char.
Proof.
  intros Hc.
  assert (code c = 48 ∨ code c = 49 ∨ code c = 50 ∨ code c = 51
          ∨ code c = 52 ∨ code c = 53 ∨ code c = 54 ∨ code c = 55
          ∨ code c = 56 ∨ code c = 57) as Hcases by lia.
  rewrite <- (chr_code c).
  repeat (destruct Hcases as [Hcases|Hcases]);
    rewrite Hcases; apply list_elem_of_In; vm_compute; tauto.
Qed.

(** The first alternative of [%m] that matches a two-digit month
    reads both digits. *)
Lemma re_m_head m1 m2 rest :
  48 ≤ code m1 ≤ 57 → 48 ≤ code m2 ≤ 57 →
  1 ≤ 10 * digit_val m1 + digit_val m2 ≤ 12 →
  ∃ tl, re_m (String m1 (String m2 rest))
        = (10 * digit_val m1 + digit_val m2, rest) :: tl.
Proof.
  intros H1%digit_cases H2%digit_cases.
  set_unfold in H1; set_unfold in H2.
  destruct_or!; subst m1 m2; vm_compute; (intros [??]; done || by eexists).
Qed.

(** Likewise for [%d] and a two-digit day. *)
Lemma re_d_head d1 d2 rest :
  48 ≤ code d1 ≤ 57 → 48 ≤ code d2 ≤ 57 →
  1 ≤ 10 * digit_val d1 + digit_val d2 ≤ 31 →
  ∃ tl, re_d (String d1 (String d2 rest))
        = (10 * digit_val d1 + digit_val d2, rest) :: tl.
Proof.
  intros H1%digit_cases H2%digit_cases.
  set_unfold in H1; set_unfold in H2.
  destruct_or!; subst d1 d2; vm_compute; (intros [??]; done || by eexists).
Qed.

(** [strptime] accepts every text in strict form whose year is not
    [0000], and reads the date it spells. *)
Lemma strptime_strict s d :
  strict_date s = Some d → 1 ≤ year d → strptime s = Some d.
Proof.
  intros (y1&y2&y3&y4&m1&m2&d1&d2&->&->&Hd&Hm&Hday)%strict_date_inv Hy.
  simpl in Hm, Hday, Hy.
  pose proof (days_in_month_bounds
    (1000 * digit_val y1 + 100 * digit_val y2 + 10 * digit_val y3
     + digit_val y4) (10 * digit_val m1 + digit_val m2)) as Hdim.
  repeat match goal with
         | H : Forall _ (_ :: _) |- _ => apply Forall_cons in H as [? H]
         end.
  destruct (re_m_head m1 m2 (String "-" (String d1 (String d2 "")))) as [tlm Em];
    [done..|].
  destruct (re_d_head d1 d2 "") as [tld Ed]; [done|done|lia|].
  unfold strptime, re_format, re_Y.
  rewrite !(proj2 (is_digit_spec _)) by done. simpl.
  rewrite Em. simpl. rewrite Ed. simpl.
  unfold valid_date; simpl.
  unfold digit_val in *.
  repeat (rewrite (proj2 (Z.leb_le _ _)) by lia). done.
Qed.

Lemma digits_of_year y :
  0 ≤ y ≤ 9999 →
  1000 * ((y `div` 1000) `mod` 10) + 100 * ((y `div` 100) `mod` 10)
  + 10 * ((y `div` 10) `mod` 10) + y `mod` 10 = y.
Proof. intros Hy. Z.div_mod_to_equations. lia. Qed.

Lemma digits_of_two n :
  0 ≤ n ≤ 99 → 10 * ((n `div` 10) `mod` 10) + n `mod` 10 = n.
Proof. intros Hn. Z.div_mod_to_equations. lia. Qed.

Lemma is_digit_digit_char n : is_digit (digit_char n) = true.
Proof.
  apply is_digit_spec. rewrite code_digit_char.
  pose proof (Z.mod_pos_bound n 10). lia.
Qed.

Lemma digit_val_digit_char n : digit_val (digit_char n) = n `mod` 10.
Proof. unfold digit_val. rewrite code_digit_char. lia. Qed.

Lemma valid_date_spec d :
  valid_date d = true ↔
  1 ≤ year d ≤ 9999 ∧ 1 ≤ month d ≤ 12
  ∧ 1 ≤ day d ≤ days_in_month (year d) (month d).
Proof. unfold valid_date. rewrite !andb_true_iff, !Z.leb_le. lia. Qed.

(** The ISO rendering of a date is in strict form and spells that
    date. *)
Lemma strict_date_isoformat d :
  valid_date d = true → strict_date (isoformat d) = Some d.
Proof.
  intros (Hy&Hm&Hd)%valid_date_spec.
  pose proof (days_in_month_bounds (year d) (month d)).
  destruct d as [y m dd]; cbn [year month day] in *.
  unfold isoformat, pad4, pad2, strict_date; cbv beta iota zeta.
  cbn [year month day].
  rewrite !is_digit_digit_char, !digit_val_digit_char.
  rewrite digits_of_year, !digits_of_two by lia.
  change (code "-" =? 45) with true. cbn [andb].
  repeat (rewrite (proj2 (Z.leb_le _ _)) by lia). done.
Qed.

Lemma strptime_isoformat d :
  valid_date d = true → strptime (isoformat d) = Some d.
Proof.
  intros Hd. apply strptime_strict; [by apply strict_date_isoformat|].
  apply valid_date_spec in Hd. lia.
Qed.

End CalendarFacts.

(** ** The table and its queries *)

Module StoreFacts.
Import Text Calendar Store TextFacts CalendarFacts.

Lemma compare_refl s : String.compare s s = Eq.
Proof.
  induction s as [|c s IH]; simpl; [done|].
  by rewrite ascii_compare_code, Z.compare_refl.
Qed.

Lemma compare_Gt_Lt s t : String.compare s t = Gt ↔ String.compare t s = Lt.
Proof.
  rewrite (String.compare_antisym t s).
  destruct (String.compare s t); simpl; split; congruence.
Qed.

Lemma compare_Lt_trans s t u :
  String.compare s t = Lt → String.compare t u = Lt →
  String.compare s u = Lt.
Proof.
  intros Hst Htu.
  assert (String.le s u) as Hsu.
  { trans t; unfold String.le, String.leb; [by rewrite Hst | by rewrite Htu]. }
  unfold String.le, String.leb in Hsu.
  destruct (String.compare s u) eqn:E; [|done|done].
  apply String.compare_eq_iff in E as ->.
  apply compare_Gt_Lt in Hst. congruence.
Qed.

Global Instance before_total : Total before.
Proof.
  intros r1 r2. unfold before, precedes.
  rewrite (String.compare_antisym (date r2) (date r1)).
  destruct (String.compare (date r1) (date r2)); simpl; try tauto.
  destruct (Z.leb_spec (id r2) (id r1)), (Z.leb_spec (id r1) (id r2));
    simpl; try tauto; lia.
Qed.

Global Instance before_trans : Transitive before.
Proof.
  intros r1 r2 r3. unfold before, precedes.
  destruct (String.compare (date r1) (date r2)) eqn:E12; [|done|].
  - apply String.compare_eq_iff in E12 as ->.
    destruct (String.compare (date r2) (date r3)); [|done|done].
    rewrite !Is_true_true, !Z.leb_le. lia.
  - intros _.
    destruct (String.compare (date r2) (date r3)) eqn:E23; [|done|].
    + apply String.compare_eq_iff in E23 as <-. by rewrite E12.
    + intros _. apply compare_Gt_Lt in E12, E23.
      pose proof (compare_Lt_trans _ _ _ E23 E12) as E.
      apply compare_Gt_Lt in E. by rewrite E.
Qed.

Lemma before_antisym r1 r2 :
  before r1 r2 → before r2 r1 → date r1 = date r2 ∧ id r1 = id r2.
Proof.
  unfold before, precedes.
  rewrite (String.compare_antisym (date r2) (date r1)).
  destruct (String.compare (date r1) (date r2)) eqn:E; simpl; [|done|done].
  apply String.compare_eq_iff in E.
  rewrite !Is_true_true, !Z.leb_le. intros. split; [done|lia].
Qed.

Lemma order_by_perm l : order_by l ≡ₚ l.
Proof. apply merge_sort_Permutation. Qed.

Lemma order_by_sorted l : StronglySorted before (order_by l).
Proof. apply (StronglySorted_merge_sort before). Qed.

Lemma StronglySorted_filter {A} (R : relation A) (P : A → Prop)
    `{!∀ x, Decision (P x)} l :
  StronglySorted R l → StronglySorted R (filter P l).
Proof.
  induction 1 as [|x l Hl IH Hx]; [constructor|].
  rewrite filter_cons. destruct (decide (P x)); [|done].
  constructor; [done|].
  apply Forall_forall. intros y [_ Hy]%list_elem_of_filter.
  rewrite Forall_forall in Hx. auto.
Qed.

Lemma NoDup_fmap_eq {A B} (f : A → B) l x y :
  NoDup (f <$> l) → x ∈ l → y ∈ l → f x = f y → x = y.
Proof.
  induction l as [|a l IH]; simpl; [by intros _ ?%elem_of_nil|].
  intros [Ha Hl]%NoDup_cons Hx Hy Hf.
  apply elem_of_cons in Hx as [->|Hx], Hy as [->|Hy]; [done|..|by apply IH].
  - destruct Ha. rewrite Hf. by apply list_elem_of_fmap_2.
  - destruct Ha. rewrite <- Hf. by apply list_elem_of_fmap_2.
Qed.

(** With a primary key the result of [ORDER BY date DESC, id DESC]
    is the only arrangement of the rows in that order. *)
Lemma order_by_unique l l' :
  NoDup (id <$> l) → l' ≡ₚ l → StronglySorted before l' → l' = order_by l.
Proof.
  intros Hnd Hp Hs.
  apply (StronglySorted_unique_strong before); [|done|apply order_by_sorted|].
  - intros x y Hx Hy Hxy Hyx.
    apply (NoDup_fmap_eq id l); [done|by rewrite <- Hp|
      by rewrite <- (order_by_perm l)|].
    by destruct (before_antisym x y).
  - by rewrite order_by_perm.
Qed.

(** Filtering commutes with ordering. *)
Lemma order_by_filter (P : expense → Prop) `{!∀ x, Decision (P x)} l :
  NoDup (id <$> l) → order_by (filter P l) = filter P (order_by l).
Proof.
  intros Hnd. symmetry. apply order_by_unique.
  - eapply sublist_NoDup; [done|]. apply fmap_sublist, sublist_filter.
  - by rewrite order_by_perm.
  - apply StronglySorted_filter, order_by_sorted.
Qed.

Lemma filter_all {A} (P : A → Prop) `{!∀ x, Decision (P x)} (l : list A) :
  (∀ x, P x) → filter P l = l.
Proof.
  intros HP. induction l as [|x l IH]; [done|].
  by rewrite filter_cons_True, IH.
Qed.

Lemma filter_Forall {A} (P : A → Prop) `{!∀ x, Decision (P x)}
    (l : list A) :
  Forall P l → filter P l = l.
Proof.
  induction 1 as [|x l Hx _ IH]; [done|].
  by rewrite filter_cons_True, IH.
Qed.

Lemma select_no_where db : select [] db = order_by (rows db).
Proof. unfold select. by rewrite filter_all. Qed.

(** A query with a [WHERE] clause returns the rows of the query
    without one that pass the clause, in the same order. *)
Lemma select_filter w db :
  primary_key db →
  select w db = filter (λ r, Is_true (forallb (holds r) w)) (select [] db).
Proof.
  intros Hpk. rewrite (select_no_where db). unfold select.
  by apply order_by_filter.
Qed.

Lemma select_all db : select [] db ≡ₚ rows db.
Proof. rewrite select_no_where. apply order_by_perm. Qed.

Lemma select_sorted w db : StronglySorted before (select w db).
Proof. apply order_by_sorted. Qed.

Lemma select_elem_of w db r :
  r ∈ select w db ↔ r ∈ rows db ∧ forallb (holds r) w = true.
Proof.
  unfold select. rewrite order_by_perm, list_elem_of_filter, Is_true_true.
  tauto.
Qed.

(** *** [add_expense] and the invariants *)

Lemma init_db_primary_key : primary_key init_db ∧ sequenced init_db.
Proof. split; [constructor|split; [done|constructor]]. Qed.

Lemma insert_primary_key db d c a n :
  primary_key db → sequenced db →
  primary_key (insert db d c a n) ∧ sequenced (insert db d c a n).
Proof.
  unfold primary_key, sequenced, insert; simpl. intros Hnd [H0 Hs]. split.
  - rewrite fmap_app. apply NoDup_app. split_and!; [done| |apply NoDup_singleton].
    intros i (r&->&Hr)%list_elem_of_fmap ?%list_elem_of_singleton.
    rewrite Forall_forall in Hs. apply Hs in Hr. simpl in *. lia.
  - split; [lia|]. apply Forall_app. split.
    + eapply Forall_impl; [done|]. simpl. intros. lia.
    + repeat constructor; simpl; lia.
Qed.

(** Every table that [add_expense] builds keeps [id] a key. *)
Lemma add_expense_primary_key db d c a n db' :
  primary_key db → sequenced db →
  add_expense db d c a n = Ok db' →
  primary_key db' ∧ sequenced db'.
Proof.
  unfold add_expense. intros Hpk Hs.
  destruct (strptime d); [|done]. intros [= <-].
  by apply insert_primary_key.
Qed.

End StoreFacts.

(** ** From the rows of the table to the records of a frame *)

Module QueryFacts.
Import Text Calendar Store QuerySpec TextFacts CalendarFacts StoreFacts.

Lemma code_lower_char c :
  code (lower_char c) = if in_range 65 90 c then code c + 32 else code c.
Proof.
  unfold lower_char. destruct (in_range 65 90 c) eqn:E; [|done].
  apply in_range_spec in E. apply code_chr. lia.
Qed.

Lemma same_letter_lower a b :
  same_letter a b = Ascii.eqb (lower_char a) (lower_char b).
Proof.
  destruct (Ascii.eqb_spec (lower_char a) (lower_char b)) as [E|E].
  - apply (f_equal code) in E. rewrite !code_lower_char in E.
    unfold same_letter, is_upper, in_range in *.
    repeat case_match; lia.
  - apply not_true_iff_false. intros Hs. apply E, code_inj.
    rewrite !code_lower_char.
    unfold same_letter, is_upper, in_range in *.
    repeat case_match; lia.
Qed.

(** Case-insensitive exact match is what the comparison of the
    lower-cased texts decides. *)
Lemma same_text_lower s t :
  same_text s t = String.eqb (lower s) (lower t).
Proof.
  revert t. induction s as [|a s IH]; intros [|b t]; simpl; try done.
  by rewrite same_letter_lower, IH.
Qed.

Lemma is_canonical_inv s :
  is_canonical s = true → ∃ d, strict_date s = Some d ∧ 1 ≤ year d.
Proof.
  unfold is_canonical. destruct (strict_date s) as [d|]; [|done].
  intros ?%Z.leb_le. eauto.
Qed.

Lemma to_datetime_canonical s :
  is_canonical s = true → to_datetime s = strict_date s.
Proof.
  intros (d&Hd&Hy)%is_canonical_inv. rewrite Hd.
  by apply strptime_strict.
Qed.

Lemma is_canonical_nonempty s : is_canonical s = true → is_empty s = false.
Proof. by destruct s. Qed.

(** On normalized dates the comparison of the stored texts decides
    the order of the dates. *)
Lemma text_leb_chron s t a b :
  strict_date s = Some a → strict_date t = Some b →
  text_leb s t = chron_leb a b.
Proof.
  intros Hs Ht. unfold text_leb, String.leb, chron_leb.
  by rewrite (strict_date_compare s t a b).
Qed.

(** A normalized row passes the assembled [WHERE] clause exactly
    when its record satisfies the filter. *)
Lemma holds_satisfies f r :
  well_formed f = true → is_canonical (date r) = true →
  forallb (holds r)
    (build_query (start_date f) (end_date f) (in_category f)
       (min_amount f) (max_amount f))
  = satisfies f (to_record r).
Proof.
  intros Hwf Hr.
  destruct (is_canonical_inv _ Hr) as (d&Hd&_).
  pose proof (to_datetime_canonical _ Hr) as Hdt. rewrite Hd in Hdt.
  destruct f as [sd ed cat mn mx].
  unfold well_formed in Hwf; simpl in Hwf.
  apply andb_prop in Hwf as [[Hsd Hed]%andb_prop Hcat].
  unfold build_query, satisfies, constraints; simpl.
  rewrite !forallb_app, <- !andb_assoc. repeat f_equal.
  - destruct sd as [s|]; simpl in *; [|done].
    rewrite (is_canonical_nonempty s Hsd). simpl.
    destruct (is_canonical_inv _ Hsd) as (b&Hb&_).
    unfold on_or_after; simpl. rewrite Hb, Hdt.
    by rewrite (text_leb_chron s (date r) b d).
  - destruct ed as [s|]; simpl in *; [|done].
    rewrite (is_canonical_nonempty s Hed). simpl.
    destruct (is_canonical_inv _ Hed) as (b&Hb&_).
    unfold on_or_before; simpl. rewrite Hb, Hdt.
    by rewrite (text_leb_chron (date r) s d b).
  - destruct cat as [c|]; simpl in *; [|done].
    destruct (is_empty c); [done|]. simpl.
    unfold has_category; simpl. by rewrite same_text_lower.
  - by destruct mn.
  - by destruct mx.
Qed.

Lemma fmap_filter_ext {A B} (f : A → B) (P : A → Prop) (Q : B → Prop)
    `{!∀ x, Decision (P x), !∀ y, Decision (Q y)} (l : list A) :
  (∀ x, x ∈ l → P x ↔ Q (f x)) →
  f <$> filter P l = filter Q (f <$> l).
Proof.
  induction l as [|x l IH]; intros HPQ; [done|].
  assert (f <$> filter P l = filter Q (f <$> l)) as IH'.
  { apply IH. intros y Hy. apply HPQ. by right. }
  assert (P x ↔ Q (f x)) as Hx by (apply HPQ; by left).
  rewrite fmap_cons. destruct (decide (P x)) as [HP|HP].
  - rewrite filter_cons_True, (filter_cons_True Q) by tauto.
    by rewrite fmap_cons, IH'.
  - rewrite filter_cons_False, (filter_cons_False Q) by tauto. done.
Qed.

Lemma StronglySorted_strengthen {A B} (R : relation A) (P : A → Prop)
    (f : A → B) l :
  StronglySorted R l → Forall P l → NoDup (f <$> l) →
  StronglySorted (λ x y, R x y ∧ P x ∧ P y ∧ f x ≠ f y) l.
Proof.
  induction 1 as [|x l Hl IH Hx]; [constructor|].
  intros [HPx HPl]%Forall_cons [Hfx Hnd]%NoDup_cons.
  constructor; [by apply IH|].
  rewrite Forall_forall in Hx, HPl. apply Forall_forall. intros y Hy.
  split_and!; auto.
  intros E. apply Hfx. rewrite E. by apply list_elem_of_fmap_2.
Qed.

(** Two normalized rows in [ORDER BY] order with different ids are
    in display order. *)
Lemma before_newer r1 r2 :
  before r1 r2 → is_canonical (date r1) = true →
  is_canonical (date r2) = true → id r1 ≠ id r2 →
  newer (to_record r1) (to_record r2).
Proof.
  intros Hb H1 H2 Hid. unfold newer; simpl.
  rewrite !to_datetime_canonical by done.
  destruct (is_canonical_inv _ H1) as (d1&Hd1&_).
  destruct (is_canonical_inv _ H2) as (d2&Hd2&_).
  rewrite Hd1, Hd2. unfold before, precedes in Hb.
  rewrite (strict_date_compare _ _ _ _ Hd1 Hd2) in Hb.
  destruct (chron_compare d1 d2); [|done..].
  apply Is_true_true, Z.leb_le in Hb. lia.
Qed.

Lemma select_newer w db :
  primary_key db → normalized db →
  StronglySorted newer (to_record <$> select w db).
Proof.
  intros Hpk Hn.
  assert (select w db `sublist_of` order_by (rows db)) as Hsub.
  { rewrite select_filter, select_no_where by done. apply sublist_filter. }
  assert (Forall (λ r, is_canonical (date r) = true) (select w db)) as Hc.
  { apply Forall_forall. intros r [Hr _]%select_elem_of.
    unfold normalized in Hn. rewrite Forall_forall in Hn. auto. }
  assert (NoDup (id <$> select w db)) as Hnd.
  { eapply sublist_NoDup; [|by apply fmap_sublist].
    unfold primary_key in Hpk. by rewrite order_by_perm. }
  pose proof (StronglySorted_strengthen _ _ id _ (select_sorted w db) Hc Hnd)
    as Hs.
  eapply StronglySorted_fmap; [|exact Hs].
  intros r1 r2 (?&?&?&?). by apply before_newer.
Qed.

Lemma fetch_all_select db : fetch_all db = to_record <$> select [] db.
Proof. done. Qed.

(** [search_expenses] returns the records of [fetch_all] that
    satisfy the filter, in the order of [fetch_all]. *)
Lemma search_filter db f :
  primary_key db → normalized db → well_formed f = true →
  search db f = filter (λ r, Is_true (satisfies f r)) (fetch_all db).
Proof.
  intros Hpk Hn Hwf.
  unfold search, search_expenses, fetch_all, read_sql_query.
  rewrite select_filter by done.
  apply fmap_filter_ext. intros r [Hr _]%select_elem_of.
  unfold normalized in Hn. rewrite Forall_forall in Hn.
  by rewrite holds_satisfies by auto.
Qed.

Lemma satisfies_refines f g r :
  refines f g → satisfies g r = true → satisfies f r = true.
Proof.
  destruct f, g. intros (H1&H2&H3&H4&H5); simpl in *.
  unfold satisfies, constraints; simpl.
  rewrite !forallb_app, !andb_true_iff. intros (G1&G2&G3&G4&G5).
  split_and!;
    [destruct H1 as [->| ->]|destruct H2 as [->| ->]
    |destruct H3 as [->| ->]|destruct H4 as [->| ->]
    |destruct H5 as [->| ->]]; done.
Qed.

Lemma elem_of_read_sql_query w db r :
  r ∈ read_sql_query w db ↔
  ∃ row, r = to_record row ∧ row ∈ rows db ∧ forallb (holds row) w = true.
Proof.
  unfold read_sql_query. rewrite list_elem_of_fmap.
  by setoid_rewrite select_elem_of.
Qed.

(** Membership in a search result, option by option. *)
Lemma elem_of_search db sd ed cat mn mx r :
  r ∈ search_expenses db sd ed cat mn mx ↔
  ∃ row, r = to_record row ∧ row ∈ rows db
    ∧ forallb (holds row)
        (if_truthy sd DateGe ++ if_truthy ed DateLe
         ++ if_truthy cat CategoryIs) = true
    ∧ from_option (λ a, a ≤ amount row)%Qc True mn
    ∧ from_option (λ a, amount row ≤ a)%Qc True mx.
Proof.
  unfold search_expenses. rewrite elem_of_read_sql_query.
  unfold build_query. simpl.
  f_equiv. intros row. rewrite !forallb_app, !andb_true_iff.
  assert (forallb (holds row) (if_not_None mn AmountGe) = true
          ↔ from_option (λ a, a ≤ amount row)%Qc True mn) as ->.
  { destruct mn; simpl; [|done].
    unfold real_leb. rewrite andb_true_r. apply bool_decide_eq_true. }
  assert (forallb (holds row) (if_not_None mx AmountLe) = true
          ↔ from_option (λ a, amount row ≤ a)%Qc True mx) as ->.
  { destruct mx; simpl; [|done].
    unfold real_leb. rewrite andb_true_r. apply bool_decide_eq_true. }
  tauto.
Qed.

End QueryFacts.

(** ** Aggregation *)

Module AnalyticsFacts.
Import Text Calendar Store Analytics TextFacts CalendarFacts StoreFacts
  QueryFacts.

Local Open Scope Qc_scope.

Lemma sum_app l k : sum (l ++ k) = sum l + sum k.
Proof.
  induction l as [|x l IH]; simpl; [by rewrite Qcplus_0_l|].
  rewrite IH. ring.
Qed.

Global Instance sum_perm : Proper ((≡ₚ) ==> (=)) sum.
Proof.
  induction 1 as [|x l l' _ IH|x y l|l l' l'' _ IH1 _ IH2]; simpl.
  - done.
  - by rewrite IH.
  - ring.
  - congruence.
Qed.

Section groups.
Context `{Countable K}.

Lemma map_total_add (m : gmap (option K) Qc) (k : option K) (a : Qc) :
  map_total (<[k := default 0 (m !! k) + a]> m) = map_total m + a.
Proof.
  unfold map_total, values. destruct (m !! k) as [x|] eqn:E; simpl.
  - rewrite <- insert_delete_eq.
    rewrite map_to_list_insert by apply lookup_delete_eq.
    rewrite <- (map_to_list_delete m k x E). simpl. ring.
  - rewrite map_to_list_insert by done. csimpl. ring.
Qed.

Lemma accumulate_total (dropna : bool) (key : record → option K)
    (m : gmap (option K) Qc) (r : record) :
  map_total (accumulate dropna key m r)
  = map_total m + (if counted dropna key r then r_amount r else 0).
Proof.
  unfold accumulate, counted.
  destruct (key r) as [k|] eqn:E.
  - by rewrite map_total_add.
  - destruct dropna; simpl; [ring|]. by rewrite map_total_add.
Qed.

(** The group sums add up to the sum over the counted rows. *)
Lemma group_sums_total_from (dropna : bool) (key : record → option K)
    (df : list record)
    (m : gmap (option K) Qc) :
  map_total (foldl (accumulate dropna key) m df)
  = map_total m
    + sum (r_amount <$> filter (λ r, Is_true (counted dropna key r)) df).
Proof.
  revert m. induction df as [|r df IH]; intros m; simpl.
  - ring.
  - rewrite IH, accumulate_total, filter_cons.
    destruct (counted dropna key r); csimpl; ring.
Qed.

Lemma group_sums_total (dropna : bool) (key : record → option K)
    (df : list record) :
  map_total (group_sums dropna key df)
  = sum (r_amount <$> filter (λ r, Is_true (counted dropna key r)) df).
Proof.
  unfold group_sums. rewrite group_sums_total_from.
  unfold map_total. rewrite map_to_list_empty. simpl. ring.
Qed.

Lemma accumulate_lookup (dropna : bool) (key : record → option K)
    (m : gmap (option K) Qc) (r : record) (k : option K) :
  accumulate dropna key m r !! k
  = if decide (key r = k ∧ Is_true (counted dropna key r))
    then Some (default 0 (m !! k) + r_amount r)
    else m !! k.
Proof.
  unfold accumulate, counted.
  destruct (key r) as [k'|] eqn:E.
  - destruct (decide (Some k' = k)) as [<-|Hne].
    + rewrite lookup_insert_eq, decide_True; done.
    + rewrite lookup_insert_ne, decide_False; [done|tauto|done].
  - destruct dropna; simpl.
    + rewrite decide_False; [done|tauto].
    + destruct (decide (None = k)) as [<-|Hne].
      * rewrite lookup_insert_eq, decide_True; done.
      * rewrite lookup_insert_ne, decide_False; [done|tauto|done].
Qed.

(** The entry of one group: the sum of its counted members,
    present when there is one. *)
Lemma group_sums_lookup_from (dropna : bool) (key : record → option K)
    (df : list record) (m : gmap (option K) Qc) (k : option K) :
  foldl (accumulate dropna key) m df !! k
  = match counted_members dropna key k df with
    | [] => m !! k
    | l => Some (default 0 (m !! k) + sum (r_amount <$> l))
    end.
Proof.
  revert m. induction df as [|r df IH]; intros m; simpl; [done|].
  rewrite IH, accumulate_lookup. unfold counted_members.
  rewrite filter_cons.
  destruct (decide (key r = k ∧ Is_true (counted dropna key r))); [|done].
  destruct (filter _ df) as [|r' l]; csimpl; f_equal; ring.
Qed.

Lemma group_sums_lookup (dropna : bool) (key : record → option K)
    (df : list record) (k : option K) :
  group_sums dropna key df !! k
  = match counted_members dropna key k df with
    | [] => None
    | l => Some (sum (r_amount <$> l))
    end.
Proof.
  unfold group_sums. rewrite group_sums_lookup_from, lookup_empty.
  destruct (counted_members dropna key k df); [done|].
  simpl. f_equal. ring.
Qed.

Lemma counted_members_keep (key : record → option K) k df :
  counted_members false key k df = members key k df.
Proof.
  unfold counted_members, members. apply list_filter_iff.
  intros r. unfold counted. destruct (key r); simpl; tauto.
Qed.

Lemma counted_members_Some (dropna : bool) (key : record → option K)
    (k : K) (df : list record) :
  counted_members dropna key (Some k) df = members key (Some k) df.
Proof.
  unfold counted_members, members. apply list_filter_iff.
  intros r. unfold counted. destruct (key r); simpl; [tauto|].
  split; [tauto|done].
Qed.

Lemma counted_members_None (key : record → option K) (df : list record) :
  counted_members true key None df = [].
Proof.
  unfold counted_members. induction df as [|r df IH]; [done|].
  rewrite filter_cons_False; [done|].
  unfold counted. intros [-> Hc]. done.
Qed.

(** *** The grouped series *)

Variable key_leb : K → K → bool.
Hypothesis key_leb_total : ∀ a b, key_leb a b = true ∨ key_leb b a = true.
Hypothesis key_leb_trans :
  ∀ a b c, key_leb a b = true → key_leb b c = true → key_leb a c = true.
Hypothesis key_leb_antisym :
  ∀ a b, key_leb a b = true → key_leb b a = true → a = b.

Local Instance label_le_total : Total (label_le key_leb).
Proof.
  intros [[a|] ?] [[b|] ?]; unfold label_le; simpl; try tauto.
  rewrite !Is_true_true. apply key_leb_total.
Qed.

Local Instance label_le_trans : Transitive (label_le key_leb).
Proof.
  intros [[a|] ?] [[b|] ?] [[c|] ?]; unfold label_le; simpl; try tauto.
  rewrite !Is_true_true. apply key_leb_trans.
Qed.

Lemma label_le_antisym a b :
  label_le key_leb a b → label_le key_leb b a → a.1 = b.1.
Proof.
  destruct a as [[a|] ?], b as [[b|] ?]; unfold label_le; simpl;
    try tauto.
  rewrite !Is_true_true. intros. f_equal. by apply key_leb_antisym.
Qed.

Lemma sort_index_perm (s : series (option K)) : sort_index key_leb s ≡ₚ s.
Proof. apply merge_sort_Permutation. Qed.

Lemma sort_index_sorted (s : series (option K)) :
  StronglySorted (label_le key_leb) (sort_index key_leb s).
Proof. apply (StronglySorted_merge_sort (label_le key_leb)). Qed.

Lemma groupby_sum_perm (dropna : bool) (key : record → option K)
    (df : list record) :
  groupby_sum key_leb dropna key df
  ≡ₚ map_to_list (group_sums dropna key df).
Proof. apply sort_index_perm. Qed.

(** Labels in ascending order without repetition are in strictly
    ascending order. *)
Lemma sorted_labels_strict (s : series (option K)) :
  StronglySorted (label_le key_leb) s → NoDup s.*1 →
  StronglySorted (λ a b, label_le key_leb a b ∧ a.1 ≠ b.1) s.
Proof.
  induction 1 as [|x l Hl IH Hx]; [constructor|].
  rewrite fmap_cons. intros [Hfx Hnd]%NoDup_cons.
  constructor; [by apply IH|].
  rewrite Forall_forall in Hx. apply Forall_forall. intros y Hy.
  split; [by apply Hx|].
  intros E. apply Hfx. rewrite E. by apply list_elem_of_fmap_2.
Qed.

(** The labels of the grouped series are those of the map, each
    once. *)
Lemma groupby_sum_NoDup (dropna : bool) (key : record → option K)
    (df : list record) :
  NoDup (groupby_sum key_leb dropna key df).*1.
Proof.
  rewrite groupby_sum_perm. apply NoDup_fst_map_to_list.
Qed.

Lemma elem_of_groupby_sum (dropna : bool) (key : record → option K)
    (df : list record) (k : option K) (v : Qc) :
  (k, v) ∈ groupby_sum key_leb dropna key df ↔
  counted_members dropna key k df ≠ []
  ∧ v = sum (r_amount <$> counted_members dropna key k df).
Proof.
  rewrite groupby_sum_perm, elem_of_map_to_list, group_sums_lookup.
  destruct (counted_members dropna key k df) as [|r l].
  - split; [done|]. by intros [? _].
  - split; [by intros [= <-]|]. by intros [_ ->].
Qed.

End groups.

(** *** The two orders of labels used by the program *)

Lemma string_leb_total a b : String.leb a b = true ∨ String.leb b a = true.
Proof. apply String.leb_total. Qed.

Lemma string_leb_trans a b c :
  String.leb a b = true → String.leb b c = true → String.leb a c = true.
Proof.
  rewrite <- !Is_true_true. intros Hab Hbc.
  by apply (transitivity (R:=String.le) Hab Hbc).
Qed.

Lemma string_leb_antisym a b :
  String.leb a b = true → String.leb b a = true → a = b.
Proof. apply String.leb_antisym. Qed.

Lemma period_leb_spec (a b : period) :
  period_leb a b = true ↔ (a.1 < b.1 ∨ (a.1 = b.1 ∧ a.2 ≤ b.2))%Z.
Proof.
  unfold period_leb.
  rewrite orb_true_iff, andb_true_iff, Z.ltb_lt, Z.eqb_eq, Z.leb_le.
  done.
Qed.

Lemma period_leb_total a b : period_leb a b = true ∨ period_leb b a = true.
Proof. rewrite !period_leb_spec. lia. Qed.

Lemma period_leb_trans a b c :
  period_leb a b = true → period_leb b c = true → period_leb a c = true.
Proof. rewrite !period_leb_spec. lia. Qed.

Lemma period_leb_antisym a b :
  period_leb a b = true → period_leb b a = true → a = b.
Proof.
  rewrite !period_leb_spec. destruct a, b; simpl. intros. f_equal; lia.
Qed.

Global Instance value_ge_total {K} : Total (@value_ge K).
Proof. intros a b. unfold value_ge. apply Qc_le_total. Qed.

Global Instance value_ge_trans {K} : Transitive (@value_ge K).
Proof. intros a b c. unfold value_ge. intros ??. by etrans. Qed.

Lemma sort_values_desc_perm {K} (s : series K) : sort_values_desc s ≡ₚ s.
Proof. apply merge_sort_Permutation. Qed.

Lemma sort_values_desc_sorted {K} (s : series K) :
  StronglySorted value_ge (sort_values_desc s).
Proof. apply (StronglySorted_merge_sort value_ge). Qed.

(** *** Totals *)

Lemma values_perm {K} (s t : series K) : s ≡ₚ t → values s ≡ₚ values t.
Proof. intros Hst. unfold values. by rewrite Hst. Qed.

Lemma spending_by_category_perm df :
  spending_by_category df
  ≡ₚ map_to_list (group_sums false r_category df).
Proof.
  unfold spending_by_category.
  by rewrite sort_values_desc_perm, groupby_sum_perm.
Qed.

Lemma monthly_periods_perm df :
  monthly_periods df ≡ₚ map_to_list (group_sums true month_of df).
Proof.
  unfold monthly_periods. by rewrite sort_index_perm, groupby_sum_perm.
Qed.

Lemma values_monthly_trend df :
  values (monthly_trend df) = values (monthly_periods df).
Proof.
  unfold monthly_trend, values. by rewrite <- list_fmap_compose.
Qed.

(** The category sums add up to the total, for every frame. *)
Lemma category_sums_total df :
  sum (values (spending_by_category df)) = total_spending df.
Proof.
  rewrite (values_perm _ _ (spending_by_category_perm df)).
  trans (map_total (group_sums false r_category df)); [done|].
  rewrite group_sums_total. unfold total_spending.
  rewrite filter_all; [done|].
  intros r. unfold counted. by destruct (r_category r).
Qed.

(** The month sums add up to the total over the dated records. *)
Lemma month_sums_total df :
  sum (values (monthly_trend df))
  = sum (r_amount <$> filter (λ r, is_Some (r_date r)) df).
Proof.
  rewrite values_monthly_trend.
  rewrite (values_perm _ _ (monthly_periods_perm df)).
  trans (map_total (group_sums true month_of df)); [done|].
  rewrite group_sums_total. do 2 f_equal.
  apply list_filter_iff. intros r. unfold counted, month_of, to_period.
  destruct (r_date r); simpl; split; done.
Qed.

(** *** The entries of the two aggregates *)

Lemma elem_of_spending_by_category df k v :
  (k, v) ∈ spending_by_category df ↔
  members r_category k df ≠ [] ∧ v = group_total r_category k df.
Proof.
  unfold spending_by_category.
  rewrite sort_values_desc_perm, elem_of_groupby_sum.
  by rewrite counted_members_keep.
Qed.

Lemma elem_of_monthly_periods df k v :
  (k, v) ∈ monthly_periods df ↔
  ∃ p, k = Some p ∧ members month_of k df ≠ []
       ∧ v = group_total month_of k df.
Proof.
  unfold monthly_periods.
  rewrite sort_index_perm, elem_of_groupby_sum.
  destruct k as [p|].
  - rewrite counted_members_Some. split; [|by intros (?&_&?)].
    intros ?. by exists p.
  - rewrite counted_members_None. split; [by intros [? _]|].
    by intros (?&?&_).
Qed.

Lemma monthly_periods_sorted df :
  StronglySorted
    (λ a b, label_le period_leb a b ∧ a.1 ≠ b.1) (monthly_periods df).
Proof.
  apply sorted_labels_strict.
  - apply sort_index_sorted;
      [apply period_leb_total | apply period_leb_trans].
  - rewrite monthly_periods_perm. apply NoDup_fst_map_to_list.
Qed.

Lemma StronglySorted_Forall {A} (R : relation A) (P : A → Prop) l :
  StronglySorted R l → Forall P l →
  StronglySorted (λ x y, R x y ∧ P x ∧ P y) l.
Proof.
  induction 1 as [|x l Hl IH Hx]; [constructor|].
  intros [HPx HPl]%Forall_cons. constructor; [by apply IH|].
  rewrite Forall_forall in Hx, HPl. apply Forall_forall. auto.
Qed.

Lemma monthly_periods_labelled df :
  Forall (λ e, is_Some e.1) (monthly_periods df).
Proof.
  apply Forall_forall. intros [k v] (p&->&_)%elem_of_monthly_periods.
  by eexists.
Qed.

Lemma monthly_trend_month_series df :
  monthly_trend df
  = (λ e, (period_str (Some e.1), e.2)) <$> month_series df.
Proof.
  unfold monthly_trend, month_series. rewrite <- list_fmap_compose.
  pose proof (monthly_periods_labelled df) as Hl.
  induction Hl as [|[k v] l [p Hp] _ IH]; [done|].
  simpl in Hp. subst k. csimpl. by rewrite IH.
Qed.

Lemma elem_of_month_series df p v :
  (p, v) ∈ month_series df ↔ (Some p, v) ∈ monthly_periods df.
Proof.
  unfold month_series. rewrite list_elem_of_fmap. split.
  - intros ([k v']&[= -> ->]&He).
    pose proof (monthly_periods_labelled df) as Hl.
    rewrite Forall_forall in Hl. destruct (Hl _ He) as [q Hq].
    simpl in Hq. by subst k.
  - intros He. by exists (Some p, v).
Qed.

Lemma month_series_sorted df :
  StronglySorted (λ a b, period_lt a.1 b.1) (month_series df).
Proof.
  unfold month_series.
  eapply StronglySorted_fmap;
    [|exact (StronglySorted_Forall _ _ _ (monthly_periods_sorted df)
               (monthly_periods_labelled df))].
  intros [k1 v1] [k2 v2] ([Hle Hne]&[p1 Hp1]&[p2 Hp2]); simpl in *.
  subst k1 k2. unfold label_le in Hle; simpl in Hle.
  apply Is_true_true, period_leb_spec in Hle.
  unfold period_lt. destruct p1 as [y1 m1], p2 as [y2 m2]; simpl in *.
  destruct (decide (y1 = y2 ∧ m1 = m2)) as [[-> ->]|]; [done|lia].
Qed.

(** The label that [monthly_trend] prints for a month of the
    calendar has the form [YYYY-MM]. *)
Lemma is_year_month_period_str (y m : Z) :
  (0 ≤ y ≤ 9999)%Z → (1 ≤ m ≤ 12)%Z →
  is_year_month (period_str (Some (y, m))) = true.
Proof.
  intros Hy Hm. unfold period_str, pad4, pad2, is_year_month.
  rewrite !is_digit_digit_char, !digit_val_digit_char.
  rewrite digits_of_two by lia.
  change (code "-" =? 45)%Z with true. cbn [andb].
  apply andb_true_intro. split; apply Z.leb_le; lia.
Qed.

End AnalyticsFacts.

(** ** Writing and reading CSV *)

Module CsvFacts.
Import Text Calendar Store Csv TextFacts CalendarFacts.

Lemma append_nil_l s : "" +:+ s = s.
Proof. done. Qed.

Lemma append_cons c s t : String c s +:+ t = String c (s +:+ t).
Proof. done. Qed.

Lemma append_nil_r s : s +:+ "" = s.
Proof.
  induction s as [|c s IH]; [done|]. by rewrite append_cons, IH.
Qed.

Lemma append_snoc s c t : (s +:+ String c "") +:+ t = s +:+ String c t.
Proof.
  induction s as [|a s IH]; [done|]. by rewrite !append_cons, IH.
Qed.

Lemma is_special_false c :
  is_special c = false → code c ≠ 44 ∧ code c ≠ 34 ∧ code c ≠ 10.
Proof. unfold is_special. rewrite !orb_false_iff, !Z.eqb_neq. tauto. Qed.

Lemma read_plain f acc row rows c k :
  contains is_special f = false → ends_field c →
  read InField acc row rows (f +:+ String c k)
  = finish c (acc +:+ f) row rows k.
Proof.
  revert acc. induction f as [|a f IH]; intros acc Hf Hc.
  - rewrite append_nil_l, append_nil_r. unfold finish. simpl.
    destruct Hc as [-> | ->]; done.
  - simpl in Hf. apply orb_false_elim in Hf as [Ha Hf].
    apply is_special_false in Ha as (H44&H34&H10).
    rewrite append_cons. simpl.
    rewrite (proj2 (Z.eqb_neq _ _) H44), (proj2 (Z.eqb_neq _ _) H10).
    rewrite IH by done. by rewrite append_snoc.
Qed.

Lemma read_quoted f acc row rows c k :
  ends_field c →
  read InQuoted acc row rows (escape f (String dquote (String c k)))
  = finish c (acc +:+ f) row rows k.
Proof.
  intros Hc. revert acc. induction f as [|a f IH]; intros acc.
  - rewrite append_nil_r. unfold finish. simpl.
    destruct Hc as [-> | ->]; done.
  - simpl. destruct (code a =? 34) eqn:Ha.
    + simpl. rewrite !Ha. simpl. rewrite ?Ha.
      rewrite IH. by rewrite append_snoc.
    + simpl. rewrite !Ha. rewrite IH. by rewrite append_snoc.
Qed.

(** A written field is read back as it was, unless it is an empty
    field that stands alone on its line. *)
Lemma read_write_field f row rows c k :
  ends_field c → (f ≠ "" ∨ row ≠ [] ∨ code c = 44) →
  read StartField "" row rows (write_field f (String c k))
  = finish c f row rows k.
Proof.
  intros Hc Hne. unfold write_field.
  destruct (contains is_special f) eqn:Hf.
  - simpl. by rewrite read_quoted.
  - destruct f as [|a f].
    + rewrite append_nil_l. unfold finish. simpl.
      destruct Hc as [Hc | Hc]; rewrite Hc; simpl; [done|].
      destruct Hne as [?|[?|?]]; [done| |lia].
      by rewrite bool_decide_eq_false_2.
    + simpl in Hf. apply orb_false_elim in Hf as [Ha Hf].
      apply is_special_false in Ha as (H44&H34&H10).
      rewrite append_cons. simpl.
      rewrite (proj2 (Z.eqb_neq _ _) H44), (proj2 (Z.eqb_neq _ _) H10),
        (proj2 (Z.eqb_neq _ _) H34).
      by rewrite read_plain.
Qed.

Lemma read_write_fields fs row rows k :
  fs ≠ [] → (row ≠ [] ∨ fs ≠ [""]) →
  read StartField "" row rows (write_fields fs k)
  = read StartField "" [] (rows ++ [row ++ fs]) k.
Proof.
  revert row. induction fs as [|f fs IH]; intros row Hfs Hrow; [done|].
  destruct fs as [|g fs].
  - simpl. rewrite read_write_field; [done|by right|].
    destruct Hrow as [?|Hf]; [by right; left|left].
    intros ->. by apply Hf.
  - change (write_fields (f :: g :: fs) k)
      with (write_field f (String comma (write_fields (g :: fs) k))).
    rewrite read_write_field; [|by left|by right; right].
    unfold finish. change (code comma =? 44) with true. cbn [andb].
    rewrite IH; [|done|left; by destruct row].
    by rewrite <- app_assoc.
Qed.

(** A written row is read back as one row with the same fields. *)
Lemma read_write_row fs rows k :
  read StartField "" [] rows (write_row fs k)
  = read StartField "" [] (rows ++ [fs]) k.
Proof.
  destruct fs as [|f fs]; [done|].
  destruct (decide (f :: fs = [""])) as [->|Hne]; [done|].
  assert (write_row (f :: fs) k = write_fields (f :: fs) k) as ->.
  { destruct f; [|done]. by destruct fs. }
  by rewrite read_write_fields; [|done|right].
Qed.

(** *** Lines *)

Lemma count_append p s t : count p (s +:+ t) = (count p s + count p t)%nat.
Proof.
  induction s as [|c s IH]; [done|].
  rewrite append_cons. simpl. rewrite IH. lia.
Qed.

Lemma count_none p s : contains p s = false → count p s = 0%nat.
Proof.
  induction s as [|c s IH]; [done|]. simpl.
  intros [-> Hs]%orb_false_elim. by rewrite IH.
Qed.

Lemma count_escape s k :
  count is_newline (escape s k)
  = (count is_newline s + count is_newline k)%nat.
Proof.
  induction s as [|c s IH]; [done|]. simpl.
  destruct (code c =? 34) eqn:Hc; simpl; rewrite IH; [|lia].
  apply Z.eqb_eq in Hc. unfold is_newline. rewrite Hc. simpl. lia.
Qed.

Lemma count_write_field f k :
  count is_newline (write_field f k)
  = (count is_newline f + count is_newline k)%nat.
Proof.
  unfold write_field. destruct (contains is_special f).
  - simpl. rewrite count_escape. simpl. lia.
  - apply count_append.
Qed.

(** A row without line breaks in its fields takes one line. *)
Lemma count_write_row fs k :
  Forall (λ f, contains is_newline f = false) fs →
  count is_newline (write_row fs k) = S (count is_newline k).
Proof.
  intros Hfs.
  assert (count is_newline (write_fields fs k) = S (count is_newline k))
    as Hw.
  { induction Hfs as [|f fs Hf Hfs IH]; [done|].
    destruct fs as [|g fs].
    - simpl. rewrite count_write_field, (count_none _ f Hf). done.
    - change (write_fields (f :: g :: fs) k)
        with (write_field f (String comma (write_fields (g :: fs) k))).
      rewrite count_write_field, (count_none _ f Hf). cbn [count].
      by rewrite IH. }
  destruct fs as [|[|a f] [|g fs]]; done.
Qed.

Section to_csv.
Variable float_repr : Qc → string.

Lemma line_count_to_csv df :
  Forall (λ r, Forall (λ f, contains is_newline f = false)
                 (cells float_repr r)) df →
  line_count (to_csv float_repr df) = S (length df).
Proof.
  intros Hdf. unfold line_count, to_csv.
  change (λ c, code c =? 10) with is_newline.
  rewrite count_write_row by (by repeat constructor).
  f_equal. induction Hdf as [|r df Hr _ IH]; [done|].
  cbn [foldr length]. by rewrite count_write_row, IH.
Qed.

Lemma read_body df rows :
  read StartField "" [] rows
    (foldr (λ r k, write_row (cells float_repr r) k) "" df)
  = Some (rows ++ (cells float_repr <$> df)).
Proof.
  revert rows. induction df as [|r df IH]; intros rows; cbn [foldr].
  - simpl. by rewrite app_nil_r.
  - rewrite read_write_row, IH. by rewrite <- app_assoc.
Qed.

(** The exported text holds the header row and then one row per
    record, in the order of the frame, with the cells of that
    record. *)
Lemma read_to_csv df :
  read_csv (to_csv float_repr df)
  = Some (header :: (cells float_repr <$> df)).
Proof.
  unfold read_csv, to_csv. by rewrite read_write_row, read_body.
Qed.
End to_csv.

End CsvFacts.

(** * The claims *)

Import Text Calendar Store QuerySpec Analytics.
Import TextFacts CalendarFacts StoreFacts QueryFacts.

Lemma ledger_built :
  ∃ db1 db2,
    add_expense init_db "2024-01-15" "Food" (Qc_of_Z 20) "" = Ok db1
    ∧ add_expense db1 "2024-01-20" "Food" (Qc_of_Z 30) "" = Ok db2
    ∧ add_expense db2 "2024-02-01" "Travel" (Qc_of_Z 100) "" = Ok ledger.
Proof. by eexists _, _. Qed.

Lemma ledger_primary_key : primary_key ledger.
Proof. apply (bool_decide_unpack _). by vm_compute. Defined.

Lemma ledger_normalized : normalized ledger.
Proof. unfold normalized. simpl. repeat constructor. Defined.





(** C10.  [search_expenses] tests the amount bounds with
    [is not None] and the text options by truthiness: a bound of 0 is
    applied (the result holds exactly the records of the unbounded
    search whose amount is not negative, respectively not positive),
    while a start date, end date or category given as the empty text
    changes nothing; a search for the category [""] alone returns
    what [fetch_all] returns. *)
Theorem search_expenses_absence_tests (db : database) :
  (∀ sd ed cat mx r,
      r ∈ search_expenses db sd ed cat (Some 0%Qc) mx ↔
      r ∈ search_expenses db sd ed cat None mx ∧ ¬ (r_amount r < 0)%Qc)
  ∧ (∀ sd ed cat mn r,
      r ∈ search_expenses db sd ed cat mn (Some 0%Qc) ↔
      r ∈ search_expenses db sd ed cat mn None ∧ ¬ (0 < r_amount r)%Qc)
  ∧ (∀ sd ed cat mn mx,
      search_expenses db (Some "") ed cat mn mx
        = search_expenses db None ed cat mn mx
      ∧ search_expenses db sd (Some "") cat mn mx
        = search_expenses db sd None cat mn mx
      ∧ search_expenses db sd ed (Some "") mn mx
        = search_expenses db sd ed None mn mx)
  ∧ search_expenses db None None (Some "") None None = fetch_all db
  ∧ fetch_all db ≡ₚ to_record <$> rows db.
Proof.
  split_and!.
  - intros sd ed cat mx r. rewrite !elem_of_search. simpl. split.
    + intros (row&->&?&?&?&?). simpl.
      split; [by exists row|by apply Qcle_not_lt].
    + intros [(row&->&?&?&_&?) ?]. simpl in *.
      exists row. split_and!; [done..| |done]. by apply Qcnot_lt_le.
  - intros sd ed cat mn r. rewrite !elem_of_search. simpl. split.
    + intros (row&->&?&?&?&?). simpl.
      split; [by exists row|by apply Qcle_not_lt].
    + intros [(row&->&?&?&?&_) ?]. simpl in *.
      exists row. split_and!; [done..|]. by apply Qcnot_lt_le.
  - done.
  - done.
  - rewrite fetch_all_select. by rewrite select_all.
Qed.

(** *** Validation in [add_expense] *)

(** The dates named in the specification: four are refused before
    anything is stored, the leap day of 2024 is accepted. *)
Lemma add_expense_date_examples (db : database) (c : string) (a : Qc)
    (n : string) :
  let err := Raise (ValueError "Date must be in YYYY-MM-DD format.") in
  add_expense db "2024-13-01" c a n = err
  ∧ add_expense db "2024-02-30" c a n = err
  ∧ add_expense db "not-a-date" c a n = err
  ∧ add_expense db "2023-02-29" c a n = err
  ∧ ∃ db', add_expense db "2024-02-29" c a n = Ok db'.
Proof. split_and!; try done. by eexists. Qed.

(** Every text in strict form with a year from 0001 on is accepted. *)
Lemma add_expense_accepts_strict (db : database) (s c : string) (a : Qc)
    (n : string) :
  is_canonical s = true → ∃ db', add_expense db s c a n = Ok db'.
Proof.
  intros (d&Hd&Hy)%is_canonical_inv. unfold add_expense.
  rewrite (strptime_strict s d Hd Hy). by eexists.
Qed.

(** C2.  [add_expense] accepts the date text ["2024-1-5"], which is
    not in the strict form [YYYY-MM-DD], and stores it as it was
    given: the validation does not refuse every text outside the
    strict form. *)
Theorem add_expense_accepts_unpadded_date (db : database) (c : string)
    (a : Qc) (n : string) :
  is_strict_date "2024-1-5" = false
  ∧ add_expense db "2024-1-5" c a n
    = Ok (insert db "2024-1-5" (strip c) a
            (if is_empty n then None else Some (strip n))).
Proof. by split. Qed.

(** The stored category and notes of a successful [add_expense]. *)
Lemma add_expense_stored (db db' : database) (d c : string) (a : Qc)
    (n : string) :
  add_expense db d c a n = Ok db' →
  rows db' = rows db
             ++ [Expense (last_id db + 1) d (strip c) a
                   (if is_empty n then None else Some (strip n))].
Proof.
  unfold add_expense. destruct (strptime d); [|done]. by intros [= <-].
Qed.

(** C7, as stated, fails: called with a category of white space only,
    [add_expense] does not raise but stores a record whose category is
    the empty text. *)
Lemma add_expense_blank_category_stored :
  strip "   " = ""
  ∧ add_expense init_db "2024-01-15" "   " (Qc_of_Z 20) ""
    = Ok (Database [Expense 1 "2024-01-15" "" (Qc_of_Z 20) None] 1).
Proof. by split. Qed.

(** C7, amended.  At the interactive add command a category that is
    empty after trimming ends the command with the notice
    ["Cancelled or invalid category."]: [add_expense] is not called,
    the table is unchanged and no error is raised. *)
Theorem prompt_add_blank_category (float : string → option Qc)
    (w : Console.world) (l1 l2 : string) (rest : list string) :
  Console.stdin w = l1 :: l2 :: rest →
  String.eqb (lower (strip l1)) "q" = false →
  strip l2 = "" →
  ∃ out,
    Console.prompt_add float w
    = (Console.Done,
       Console.World (Console.db w) rest
         ("Cancelled or invalid category." :: out) (Console.today w)).
Proof.
  intros Hin Hq Hblank.
  unfold Console.prompt_add, Console.input, Console.print. simpl.
  rewrite Hin, Hq. unfold Console.ask_category, Console.input. simpl.
  rewrite Hblank. simpl.
  unfold Console.print. simpl. by eexists.
Qed.

Lemma prompt_add_blank_category_witness :
  ∃ out,
    Console.prompt_add (λ _, None)
      (Console.World ledger ["2024-03-01"; "   "; "12.50"; ""] []
         (Ymd 2024 3 2))
    = (Console.Done,
       Console.World ledger ["12.50"; ""]
         ("Cancelled or invalid category." :: out) (Ymd 2024 3 2)).
Proof.
  apply (prompt_add_blank_category (λ _, None)
           (Console.World ledger ["2024-03-01"; "   "; "12.50"; ""] []
              (Ymd 2024 3 2)) "2024-03-01" "   " ["12.50"; ""]);
    reflexivity.
Defined.

(** C8.  Called with notes of white space only, [add_expense] stores
    the empty text, not an absent value: the test for emptiness comes
    before the trimming. *)
Theorem add_expense_whitespace_notes :
  all_space "   " = true
  ∧ add_expense init_db "2024-01-15" "Food" (Qc_of_Z 20) "   "
    = Ok (Database
            [Expense 1 "2024-01-15" "Food" (Qc_of_Z 20) (Some "")] 1).
Proof. by split. Qed.

(** Empty notes are stored as an absent value, and notes with a
    visible character as the trimmed text. *)
Lemma add_expense_notes (db db' : database) (d c : string) (a : Qc)
    (n : string) :
  add_expense db d c a n = Ok db' →
  notes <$> last (rows db')
  = Some (if is_empty n then None else Some (strip n)).
Proof.
  intros ->%add_expense_stored. by rewrite last_snoc.
Qed.

(** Through the interactive command the notes are trimmed before
    [add_expense] sees them, so that blank notes are stored as an
    absent value. *)
Lemma ask_notes_blank (d c : string) (a : Qc) (w : Console.world)
    (l : string) (rest : list string) :
  Console.stdin w = l :: rest → all_space l = true →
  is_Some (strptime d) →
  ∃ out,
    Console.ask_notes d c a w
    = (Console.Done,
       Console.World (insert (Console.db w) d (strip c) a None) rest out
         (Console.today w)).
Proof.
  intros Hin Hl%strip_empty_iff [dd Hd].
  unfold Console.ask_notes, Console.input. rewrite Hin. simpl.
  unfold add_expense. rewrite Hd, Hl. simpl. by eexists.
Qed.

(** *** Empty input *)

(** C6.  On an empty record set [total_spending] is 0 and
    [spending_by_category] and [monthly_trend] are empty; given an
    empty series the chart adapters print a notice, return [None] and
    make no plotting call. *)
Theorem empty_input_safe :
  total_spending [] = 0%Qc
  ∧ spending_by_category [] = []
  ∧ monthly_trend [] = []
  ∧ ∀ (K : Type) (path : string),
      Charts.plot_pie_category (@nil (K * Qc)) path
        = ([Stdout "No data to plot for category pie chart."], None)
      ∧ Charts.plot_monthly_trend (@nil (K * Qc)) path
        = ([Stdout "No data to plot for monthly trend."], None)
      ∧ filter (λ e, Is_true (is_plt e))
          (Charts.plot_pie_category (@nil (K * Qc)) path).1 = []
      ∧ filter (λ e, Is_true (is_plt e))
          (Charts.plot_monthly_trend (@nil (K * Qc)) path).1 = [].
Proof.
  split_and!; try done.
Qed.

(** *** Aggregation *)

Import AnalyticsFacts.



(** The dates of a frame read from a normalized table are present
    and valid. *)
Lemma fetch_all_dated (db : database) :
  normalized db → dated (fetch_all db) ∧ dates_valid (fetch_all db).
Proof.
  intros Hn. unfold normalized in Hn. rewrite Forall_forall in Hn.
  unfold dated, dates_valid. rewrite <- Forall_and.
  apply Forall_forall. intros r (row&->&[Hrow _]%select_elem_of)%list_elem_of_fmap.
  simpl. rewrite to_datetime_canonical by auto.
  destruct (is_canonical_inv _ (Hn _ Hrow)) as (d&Hd&Hy).
  rewrite Hd. simpl. split; [by eexists|].
  apply strict_date_inv in Hd as (y1&y2&y3&y4&m1&m2&d1&d2&_&Ed&Hdig&Hm&Hdd).
  apply valid_date_spec. split_and!; try lia.
  subst d. simpl in *.
  repeat match goal with
         | H : Forall _ (_ :: _) |- _ => apply Forall_cons in H as [? H]
         end.
  unfold digit_val. lia.
Qed.




(** *** Export *)

Import Csv CsvFacts.




(** * Further properties of the program *)

(** ** The date check *)

Module AcceptedFacts.
Import Text Calendar Accepted TextFacts CalendarFacts.

Lemma elem_of_re_two la ha lb hb s v rest :
  (v, rest) ∈ re_two la ha lb hb s →
  ∃ a b, s = String a (String b rest) ∧ la ≤ code a ≤ ha ∧ lb ≤ code b ≤ hb
         ∧ v = 10 * digit_val a + digit_val b.
Proof.
  unfold re_two. destruct s as [|a [|b s]]; try by intros ?%elem_of_nil.
  destruct (in_range la ha a && in_range lb hb b) eqn:E;
    [|by intros ?%elem_of_nil].
  apply andb_prop in E as [Ha%in_range_spec Hb%in_range_spec].
  intros [= -> ->]%list_elem_of_singleton. by exists a, b.
Qed.

Lemma elem_of_re_one s v rest :
  (v, rest) ∈ re_one s →
  ∃ a, s = String a rest ∧ 49 ≤ code a ≤ 57 ∧ v = digit_val a.
Proof.
  unfold re_one. destruct s as [|a s]; [by intros ?%elem_of_nil|].
  destruct (in_range 49 57 a) eqn:E; [|by intros ?%elem_of_nil].
  apply in_range_spec in E.
  intros [= -> ->]%list_elem_of_singleton. by exists a.
Qed.

Lemma elem_of_re_space_one s v rest :
  (v, rest) ∈ re_space_one s →
  ∃ a, s = String " " (String a rest) ∧ 49 ≤ code a ≤ 57 ∧ v = digit_val a.
Proof.
  unfold re_space_one. destruct s as [|c [|a s]]; try by intros ?%elem_of_nil.
  destruct ((code c =? 32) && in_range 49 57 a) eqn:E;
    [|by intros ?%elem_of_nil].
  apply andb_prop in E as [Hc%Z.eqb_eq Ha%in_range_spec].
  intros [= -> ->]%list_elem_of_singleton.
  assert (c = " "%char) as -> by (by apply code_inj). by exists a.
Qed.

Lemma elem_of_re_dash s rest : rest ∈ re_dash s → s = String "-" rest.
Proof.
  unfold re_dash. destruct s as [|c s]; [by intros ?%elem_of_nil|].
  destruct (code c =? 45) eqn:E; [|by intros ?%elem_of_nil].
  apply Z.eqb_eq in E. intros ->%list_elem_of_singleton.
  f_equal. by apply code_inj.
Qed.

Lemma elem_of_re_Y s y rest :
  (y, rest) ∈ re_Y s →
  ∃ a b c d, s = String a (String b (String c (String d rest)))
    ∧ Forall (λ x, 48 ≤ code x ≤ 57) [a; b; c; d]
    ∧ y = 1000 * digit_val a + 100 * digit_val b + 10 * digit_val c
          + digit_val d.
Proof.
  unfold re_Y. destruct s as [|a [|b [|c [|d s]]]]; try by intros ?%elem_of_nil.
  destruct (_ && _) eqn:E; [|by intros ?%elem_of_nil].
  repeat (apply andb_prop in E as [E ?]).
  repeat match goal with
         | H : is_digit _ = true |- _ => apply is_digit_spec in H
         | H : (_ <=? _) = true |- _ => apply Z.leb_le in H
         end.
  intros [= -> ->]%list_elem_of_singleton.
  exists a, b, c, d. split_and!; [done| |done].
  repeat constructor; lia.
Qed.

(** Two digits are the two-digit rendering of their value, one digit
    the one-digit rendering. *)
Lemma digit_char_digit a : 48 ≤ code a ≤ 57 → digit_char (digit_val a) = a.
Proof.
  intros Ha. apply code_inj. rewrite code_digit_char. unfold digit_val.
  rewrite Z.mod_small; lia.
Qed.

Lemma pad2_digits a b k :
  48 ≤ code a ≤ 57 → 48 ≤ code b ≤ 57 →
  pad2 (10 * digit_val a + digit_val b) k = String a (String b k).
Proof.
  intros Ha Hb. unfold pad2.
  assert (digit_char ((10 * digit_val a + digit_val b) `div` 10) = a) as ->.
  { rewrite <- (digit_char_digit a Ha) at 2. unfold digit_char. do 2 f_equal.
    unfold digit_val. Z.div_mod_to_equations. lia. }
  assert (digit_char (10 * digit_val a + digit_val b) = b) as ->; [|done].
  rewrite <- (digit_char_digit b Hb) at 2. unfold digit_char. do 2 f_equal.
  unfold digit_val. Z.div_mod_to_equations. lia.
Qed.

Lemma pad4_digits a b c d k :
  Forall (λ x, 48 ≤ code x ≤ 57) [a; b; c; d] →
  pad4 (1000 * digit_val a + 100 * digit_val b + 10 * digit_val c
        + digit_val d) k
  = String a (String b (String c (String d k))).
Proof.
  intros H.
  repeat match goal with
         | H : Forall _ (_ :: _) |- _ => apply Forall_cons in H as [? H]
         end.
  unfold pad4.
  assert (digit_char ((1000 * digit_val a + 100 * digit_val b
                       + 10 * digit_val c + digit_val d) `div` 1000) = a)
    as ->.
  { rewrite <- (digit_char_digit a) at 2 by done. unfold digit_char.
    do 2 f_equal. unfold digit_val. Z.div_mod_to_equations. lia. }
  assert (digit_char ((1000 * digit_val a + 100 * digit_val b
                       + 10 * digit_val c + digit_val d) `div` 100) = b)
    as ->.
  { rewrite <- (digit_char_digit b) at 2 by done. unfold digit_char.
    do 2 f_equal. unfold digit_val. Z.div_mod_to_equations. lia. }
  do 2 f_equal. unfold pad2.
  assert (digit_char ((1000 * digit_val a + 100 * digit_val b
                       + 10 * digit_val c + digit_val d) `div` 10) = c)
    as ->.
  { rewrite <- (digit_char_digit c) at 2 by done. unfold digit_char.
    do 2 f_equal. unfold digit_val. Z.div_mod_to_equations. lia. }
  assert (digit_char (1000 * digit_val a + 100 * digit_val b
                      + 10 * digit_val c + digit_val d) = d) as ->; [|done].
  rewrite <- (digit_char_digit d) at 2 by done. unfold digit_char.
  do 2 f_equal. unfold digit_val. Z.div_mod_to_equations. lia.
Qed.

(** What [%m] matches is one of the ways to write a month. *)
Lemma re_m_sound s m rest :
  (m, rest) ∈ re_m s →
  ∃ ms, s = ms +:+ rest ∧ ms ∈ month_texts m ∧ 1 ≤ m ≤ 12.
Proof.
  unfold re_m. rewrite !elem_of_app. intros [H|[H|H]].
  - apply elem_of_re_two in H as (a&b&->&Ha&Hb&->).
    exists (String a (String b "")). split_and!; [done| |unfold digit_val; lia..].
    unfold month_texts. rewrite <- (pad2_digits a b "") by lia. by left.
  - apply elem_of_re_two in H as (a&b&->&Ha&Hb&->).
    exists (String a (String b "")). split_and!; [done| |unfold digit_val; lia..].
    unfold month_texts. rewrite <- (pad2_digits a b "") by lia. by left.
  - apply elem_of_re_one in H as (a&->&Ha&->).
    exists (String a ""). split_and!; [done| |unfold digit_val; lia..].
    unfold month_texts. rewrite (proj2 (Z.ltb_lt _ _)) by (unfold digit_val; lia).
    rewrite !elem_of_cons. right; left. unfold one_digit.
    by rewrite digit_char_digit by lia.
Qed.

(** What [%d] matches is one of the ways to write a day. *)
Lemma re_d_sound s d rest :
  (d, rest) ∈ re_d s →
  ∃ ds, s = ds +:+ rest ∧ ds ∈ day_texts d ∧ 1 ≤ d ≤ 31.
Proof.
  unfold re_d. rewrite !elem_of_app. intros [H|[H|[H|[H|H]]]].
  - apply elem_of_re_two in H as (a&b&->&Ha&Hb&->).
    exists (String a (String b "")). split_and!; [done| |unfold digit_val; lia..].
    unfold day_texts. rewrite <- (pad2_digits a b "") by lia. by left.
  - apply elem_of_re_two in H as (a&b&->&Ha&Hb&->).
    exists (String a (String b "")). split_and!; [done| |unfold digit_val; lia..].
    unfold day_texts. rewrite <- (pad2_digits a b "") by lia. by left.
  - apply elem_of_re_two in H as (a&b&->&Ha&Hb&->).
    exists (String a (String b "")). split_and!; [done| |unfold digit_val; lia..].
    unfold day_texts. rewrite <- (pad2_digits a b "") by lia. by left.
  - apply elem_of_re_one in H as (a&->&Ha&->).
    exists (String a ""). split_and!; [done| |unfold digit_val; lia..].
    unfold day_texts. rewrite (proj2 (Z.ltb_lt _ _)) by (unfold digit_val; lia).
    rewrite !elem_of_cons. right; left. unfold one_digit.
    by rewrite digit_char_digit by lia.
  - apply elem_of_re_space_one in H as (a&->&Ha&->).
    exists (String " " (String a "")).
    split_and!; [done| |unfold digit_val; lia..].
    unfold day_texts. rewrite (proj2 (Z.ltb_lt _ _)) by (unfold digit_val; lia).
    rewrite !elem_of_cons. right; right; left. unfold space_digit, one_digit.
    by rewrite digit_char_digit by lia.
Qed.

(** Every match of the format spells its date in one of the ways of
    [date_texts], followed by what remains. *)
Lemma re_format_sound s d rest :
  (d, rest) ∈ re_format s →
  ∃ ms ds, ms ∈ month_texts (month d) ∧ ds ∈ day_texts (day d)
    ∧ s = pad4 (year d) (String "-" (ms +:+ String "-" (ds +:+ rest))).
Proof.
  unfold re_format.
  intros ([y s1]&H&Hy)%list_elem_of_bind.
  apply list_elem_of_bind in H as (s2&H&H1).
  apply list_elem_of_bind in H as ([m s3]&H&Hm).
  apply list_elem_of_bind in H as (s4&H&H3).
  apply list_elem_of_bind in H as ([dd s5]&H&Hd).
  apply list_elem_of_singleton in H as [= -> ->].
  apply elem_of_re_Y in Hy as (a&b&c&e&->&Hdig&->).
  apply elem_of_re_dash in H1 as ->. apply elem_of_re_dash in H3 as ->.
  apply re_m_sound in Hm as (ms&->&Hms&_).
  apply re_d_sound in Hd as (ds&->&Hds&_).
  exists ms, ds. simpl. split_and!; [done..|].
  by rewrite pad4_digits.
Qed.

Lemma re_Y_pad4 y k : 0 ≤ y ≤ 9999 → re_Y (pad4 y k) = [(y, k)].
Proof.
  intros Hy. unfold pad4, pad2, re_Y.
  rewrite !is_digit_digit_char, !digit_val_digit_char. cbn [andb].
  by rewrite digits_of_year.
Qed.

Lemma re_m_complete m ms k :
  1 ≤ m ≤ 12 → ms ∈ month_texts m →
  ∃ tl, re_m (ms +:+ String "-" k) = (m, String "-" k) :: tl.
Proof.
  intros Hm H. apply list_elem_of_In in H.
  assert (m = 1 ∨ m = 2 ∨ m = 3 ∨ m = 4 ∨ m = 5 ∨ m = 6 ∨ m = 7 ∨ m = 8
          ∨ m = 9 ∨ m = 10 ∨ m = 11 ∨ m = 12) as Hc by lia.
  destruct_or!; subst m; vm_compute in H;
    repeat (destruct H as [<-|H]); try done; vm_compute; by eexists.
Qed.

Lemma re_d_complete d ds :
  1 ≤ d ≤ 31 → ds ∈ day_texts d → ∃ tl, re_d ds = (d, "") :: tl.
Proof.
  intros Hd H. apply list_elem_of_In in H.
  assert (d = 1 ∨ d = 2 ∨ d = 3 ∨ d = 4 ∨ d = 5 ∨ d = 6 ∨ d = 7 ∨ d = 8
          ∨ d = 9 ∨ d = 10 ∨ d = 11 ∨ d = 12 ∨ d = 13 ∨ d = 14 ∨ d = 15
          ∨ d = 16 ∨ d = 17 ∨ d = 18 ∨ d = 19 ∨ d = 20 ∨ d = 21 ∨ d = 22
          ∨ d = 23 ∨ d = 24 ∨ d = 25 ∨ d = 26 ∨ d = 27 ∨ d = 28 ∨ d = 29
          ∨ d = 30 ∨ d = 31) as Hc by lia.
  destruct_or!; subst d; vm_compute in H;
    repeat (destruct H as [<-|H]); try done; vm_compute; by eexists.
Qed.

(** [strptime] reads every way of writing a valid date as that date. *)
Lemma strptime_complete d s :
  valid_date d = true → s ∈ date_texts d → strptime s = Some d.
Proof.
  intros Hv (ms&H&Hms)%list_elem_of_bind.
  apply list_elem_of_bind in H as (ds&H&Hds).
  apply list_elem_of_singleton in H as ->.
  pose proof Hv as (Hy&Hm&Hd)%valid_date_spec.
  pose proof (days_in_month_bounds (year d) (month d)).
  destruct (re_m_complete (month d) ms ds Hm Hms) as [tlm Em].
  destruct (re_d_complete (day d) ds) as [tld Ed]; [lia|done|].
  unfold strptime, re_format. rewrite re_Y_pad4 by lia. simpl.
  rewrite Em. simpl. rewrite Ed. simpl.
  destruct d as [y m dd]. simpl in *. by rewrite Hv.
Qed.

(** What [strptime] accepts is a way of writing the date it returns. *)
Lemma strptime_sound s d :
  strptime s = Some d → valid_date d = true ∧ s ∈ date_texts d.
Proof.
  unfold strptime. destruct (re_format s) as [|[d' rest] tl] eqn:E; [done|].
  destruct (is_empty rest) eqn:Hr; [|done].
  destruct (valid_date d') eqn:Hv; [|done]. intros [= ->].
  apply is_empty_spec in Hr as ->. split; [done|].
  assert ((d, "") ∈ re_format s) as H by (rewrite E; left).
  apply re_format_sound in H as (ms&ds&Hms&Hds&->).
  rewrite CsvFacts.append_nil_r.
  apply list_elem_of_bind. exists ms. split; [|done].
  apply list_elem_of_bind. exists ds. split; [|done]. by left.
Qed.

End AcceptedFacts.

(** ** Trimming *)

Module TrimFacts.
Import Text Trimmed TextFacts.

Lemma lstrip_starts_clean s : starts_clean (lstrip s).
Proof.
  induction s as [|c s IH]; simpl; [done|].
  destruct (is_space c) eqn:E; [done|]. simpl. done.
Qed.

Lemma lstrip_clean s : starts_clean s → lstrip s = s.
Proof. destruct s as [|c s]; simpl; [done|]. by intros ->. Qed.

Lemma rstrip_starts_clean s : starts_clean s → starts_clean (rstrip s).
Proof.
  destruct s as [|c s]; simpl; [done|]. intros Hc. by rewrite Hc.
Qed.

Lemma rstrip_idem s : rstrip (rstrip s) = rstrip s.
Proof.
  induction s as [|c s IH]; simpl; [done|].
  destruct (is_space c && is_empty (rstrip s)) eqn:E; [done|].
  simpl. by rewrite IH, E.
Qed.

(** Trimming a trimmed text changes nothing, on either side. *)
Lemma strip_trimmed s :
  lstrip (strip s) = strip s ∧ rstrip (strip s) = strip s
  ∧ strip (strip s) = strip s.
Proof.
  assert (lstrip (strip s) = strip s) as Hl.
  { apply lstrip_clean, rstrip_starts_clean, lstrip_starts_clean. }
  assert (rstrip (strip s) = strip s) as Hr by apply rstrip_idem.
  split_and!; [done..|]. unfold strip at 1. by rewrite Hl.
Qed.

Lemma lower_empty s : is_empty (lower s) = is_empty s.
Proof. by destruct s. Qed.

End TrimFacts.

(** ** Queries and aggregates, continued *)

Module MoreFacts.
Import Text Calendar Store QuerySpec Analytics.
Import TextFacts CalendarFacts StoreFacts QueryFacts AnalyticsFacts.

Lemma order_by_nil : order_by [] = [].
Proof. done. Qed.

(** A [WHERE] clause that no row passes selects nothing. *)
Lemma select_none w db :
  (∀ r, forallb (holds r) w = false) → select w db = [].
Proof.
  intros Hw. unfold select.
  assert (filter (λ r, Is_true (forallb (holds r) w)) (rows db) = []) as ->;
    [|done].
  induction (rows db) as [|r l IH]; [done|].
  rewrite filter_cons_False; [done|]. rewrite Hw. simpl. tauto.
Qed.

(** Two [WHERE] clauses that pass the same rows select the same. *)
Lemma select_ext w w' db :
  (∀ r, forallb (holds r) w = forallb (holds r) w') →
  select w db = select w' db.
Proof.
  intros Hw. unfold select. f_equal. apply list_filter_iff.
  intros r. by rewrite Hw.
Qed.

Lemma forallb_build_query r sd ed cat mn mx :
  forallb (holds r) (build_query sd ed cat mn mx)
  = forallb (holds r) (if_truthy sd DateGe)
    && forallb (holds r) (if_truthy ed DateLe)
    && forallb (holds r) (if_truthy cat CategoryIs)
    && forallb (holds r) (if_not_None mn AmountGe)
    && forallb (holds r) (if_not_None mx AmountLe).
Proof. unfold build_query. simpl. by rewrite !forallb_app. Qed.

Lemma text_leb_trans a b c :
  text_leb a b = true → text_leb b c = true → text_leb a c = true.
Proof. apply string_leb_trans. Qed.

(** The table after a successful [add_expense]. *)
Lemma select_all_insert db d c a n :
  select [] (insert db d c a n)
  ≡ₚ Expense (last_id db + 1) d c a n :: select [] db.
Proof.
  rewrite !select_all. unfold insert. simpl.
  by rewrite Permutation_app_comm.
Qed.

Lemma total_spending_perm df df' :
  df ≡ₚ df' → total_spending df = total_spending df'.
Proof. intros Hp. unfold total_spending. by rewrite Hp. Qed.

(** Permuting the frame does not change the table of group sums. *)
Lemma group_sums_perm `{Countable K} (dropna : bool)
    (key : record → option K) (df df' : list record) :
  df ≡ₚ df' → group_sums dropna key df = group_sums dropna key df'.
Proof.
  intros Hp. apply map_eq. intros k. rewrite !group_sums_lookup.
  assert (counted_members dropna key k df ≡ₚ counted_members dropna key k df')
    as Hc by (unfold counted_members; by rewrite Hp).
  destruct (counted_members dropna key k df) as [|r l] eqn:E,
    (counted_members dropna key k df') as [|r' l'] eqn:E'.
  - done.
  - by apply Permutation_nil_cons in Hc.
  - symmetry in Hc. by apply Permutation_nil_cons in Hc.
  - f_equal. by rewrite Hc.
Qed.

(** When the aggregates are empty. *)
Lemma aggregates_empty (df : list record) :
  (spending_by_category df = [] ↔ df = [])
  ∧ (monthly_trend df = [] ↔ Forall (λ r, r_date r = None) df).
Proof.
  split; split.
  - intros He. destruct df as [|r l]; [done|].
    assert ((r_category r, group_total r_category (r_category r) (r :: l))
            ∈ spending_by_category (r :: l)) as Hin.
    { apply elem_of_spending_by_category. split; [|done].
      unfold members. by rewrite filter_cons_True. }
    rewrite He in Hin. by apply elem_of_nil in Hin.
  - by intros ->.
  - intros He. apply Forall_forall. intros r Hr.
    destruct (r_date r) as [d|] eqn:Hd; [|done].
    assert ((Some (year d, month d),
             group_total month_of (Some (year d, month d)) df)
            ∈ monthly_periods df) as Hin.
    { apply elem_of_monthly_periods. eexists. split_and!; [done| |done].
      intros Hm.
      assert (r ∈ members month_of (Some (year d, month d)) df) as Hr'.
      { apply list_elem_of_filter. split; [|done].
        unfold month_of. by rewrite Hd. }
      rewrite Hm in Hr'. by apply elem_of_nil in Hr'. }
    unfold monthly_trend in He. apply fmap_nil_inv in He.
    rewrite He in Hin. by apply elem_of_nil in Hin.
  - intros Hall. unfold monthly_trend.
    assert (monthly_periods df = []) as ->; [|done].
    apply elem_of_nil_inv. intros [k v] (p&->&Hm&_)%elem_of_monthly_periods.
    apply Hm. clear Hm. unfold members.
    induction Hall as [|r l Hr _ IH]; [done|].
    rewrite filter_cons_False; [done|].
    unfold month_of. by rewrite Hr.
Qed.

Lemma spending_by_category_empty (df : list record) :
  spending_by_category df = [] ↔ df = [].
Proof. apply aggregates_empty. Qed.

Lemma monthly_trend_empty (df : list record) :
  monthly_trend df = [] ↔ Forall (λ r, r_date r = None) df.
Proof. apply aggregates_empty. Qed.

End MoreFacts.

Import Accepted AcceptedFacts TrimFacts MoreFacts Charts.

(** ** [add_expense] *)


(** X2.  A successful [add_expense] appends one row and leaves the
    earlier rows as they were; the new id is larger than every id in
    the table, so ids stay unique and are never reused. *)
Theorem add_expense_appends (db db' : database) (d c : string) (a : Qc)
    (n : string) :
  primary_key db → sequenced db →
  add_expense db d c a n = Ok db' →
  ∃ r, rows db' = rows db ++ [r]
       ∧ Forall (λ r0, id r0 < id r) (rows db)
       ∧ last_id db' = id r
       ∧ primary_key db' ∧ sequenced db'.
Proof.
  intros Hpk Hs Hadd.
  destruct (add_expense_primary_key _ _ _ _ _ _ Hpk Hs Hadd) as [Hpk' Hs'].
  pose proof (add_expense_stored _ _ _ _ _ _ Hadd) as Hrows.
  eexists. split; [exact Hrows|]. split_and!; [| |done|done].
  - destruct Hs as [_ Hs]. eapply Forall_impl; [exact Hs|].
    simpl. intros. lia.
  - unfold add_expense in Hadd. destruct (strptime d); [|done].
    by injection Hadd as <-.
Qed.

Lemma add_expense_appends_witness :
  ∃ r, rows ledger
       = [ Expense 1 "2024-01-15" "Food" (Qc_of_Z 20) None;
           Expense 2 "2024-01-20" "Food" (Qc_of_Z 30) None ] ++ [r]
       ∧ id r = 3.
Proof.
  destruct (add_expense_appends
              (Database [ Expense 1 "2024-01-15" "Food" (Qc_of_Z 20) None;
                          Expense 2 "2024-01-20" "Food" (Qc_of_Z 30) None ] 2)
              ledger "2024-02-01" "Travel" (Qc_of_Z 100) "")
    as (r&Hr&_&Hid&_).
  - apply (bool_decide_unpack _). by vm_compute.
  - split; [done|]. repeat constructor; simpl; lia.
  - reflexivity.
  - exists r. split; [exact Hr|]. by rewrite <- Hid.
Defined.

(** X3.  The row that [add_expense] stores holds the date text and
    the amount as given and the category and notes without white
    space at either end. *)
Theorem add_expense_stores_trimmed (db db' : database) (d c : string)
    (a : Qc) (n : string) :
  add_expense db d c a n = Ok db' →
  ∃ r, last (rows db') = Some r
       ∧ date r = d ∧ amount r = a
       ∧ category r = strip c
       ∧ lstrip (category r) = category r
       ∧ rstrip (category r) = category r
       ∧ from_option (λ t, lstrip t = t ∧ rstrip t = t) True (notes r).
Proof.
  intros ->%add_expense_stored. eexists. rewrite last_snoc.
  split; [done|]. simpl.
  destruct (strip_trimmed c) as (?&?&_).
  destruct (strip_trimmed n) as (?&?&_).
  split_and!; try done. by destruct (is_empty n).
Qed.

Lemma add_expense_stores_trimmed_witness :
  ∃ r, category r = "Food" ∧ notes r = Some "lunch, with tip".
Proof.
  destruct (add_expense_stores_trimmed init_db
              (insert init_db "2024-03-01" "Food" (Qc_of_Z 12)
                 (Some "lunch, with tip"))
              "2024-03-01" "  Food " (Qc_of_Z 12) " lunch, with tip  ")
    as (r&Hr&_&_&_&_&_&_).
  - reflexivity.
  - exists r. simpl in Hr. by injection Hr as <-.
Defined.

(** ** Queries *)

(** X4.  Whatever the arguments, [search_expenses] returns records of
    [fetch_all] in the order of [fetch_all]: a sublist. *)
Theorem search_expenses_sublist (db : database) (sd ed cat : option string)
    (mn mx : option Qc) :
  primary_key db →
  search_expenses db sd ed cat mn mx `sublist_of` fetch_all db.
Proof.
  intros Hpk. unfold search_expenses, fetch_all, read_sql_query.
  apply fmap_sublist. rewrite (select_filter _ db Hpk). apply sublist_filter.
Qed.

Lemma search_expenses_sublist_witness :
  search_expenses ledger (Some "2024-1") None (Some "FOOD") None
    (Some (Qc_of_Z 25))
  `sublist_of` fetch_all ledger.
Proof. apply search_expenses_sublist. exact ledger_primary_key. Defined.

(** X5.  A search whose minimum amount exceeds its maximum amount
    returns nothing, and so does a search whose start date text comes
    after its (non-empty) end date text. *)
Theorem search_expenses_empty_range (db : database)
    (sd ed cat : option string) (mn mx : option Qc) :
  (∀ a b, (b < a)%Qc →
     search_expenses db sd ed cat (Some a) (Some b) = [])
  ∧ (∀ s e, is_empty e = false → text_leb s e = false →
     search_expenses db (Some s) (Some e) cat mn mx = []).
Proof.
  split.
  - intros a b Hab. unfold search_expenses, read_sql_query.
    rewrite select_none; [done|]. intros r.
    rewrite forallb_build_query. simpl. unfold real_leb.
    destruct (bool_decide (a ≤ amount r)%Qc) eqn:E1;
      [|by rewrite andb_false_r].
    destruct (bool_decide (amount r ≤ b)%Qc) eqn:E2;
      [|by rewrite !andb_false_r].
    apply bool_decide_eq_true in E1, E2.
    destruct (Qclt_not_le _ _ Hab). by etrans.
  - intros s e He Hse. unfold search_expenses, read_sql_query.
    rewrite select_none; [done|]. intros r.
    rewrite forallb_build_query. unfold if_truthy at 1 2. rewrite He.
    destruct (is_empty s) eqn:Hs.
    { apply is_empty_spec in Hs as ->. by destruct e. }
    simpl.
    destruct (text_leb s (date r)) eqn:E1; [|done].
    destruct (text_leb (date r) e) eqn:E2; [|done].
    by rewrite (text_leb_trans _ _ _ E1 E2) in Hse.
Qed.

Lemma search_expenses_empty_range_witness :
  search_expenses ledger None None None (Some (Qc_of_Z 50))
    (Some (Qc_of_Z 10)) = []
  ∧ search_expenses ledger (Some "2024-02-01") (Some "2024-01-01") None
      None None = [].
Proof.
  destruct (search_expenses_empty_range ledger None None None None None)
    as [H1 H2].
  split; [by apply H1|by apply H2].
Defined.

(** X6.  The category argument of [search_expenses] is compared
    without regard to the case of ASCII letters: two arguments that
    differ only in case give the same result. *)
Theorem search_expenses_category_case (db : database)
    (sd ed : option string) (c1 c2 : string) (mn mx : option Qc) :
  lower c1 = lower c2 →
  search_expenses db sd ed (Some c1) mn mx
  = search_expenses db sd ed (Some c2) mn mx.
Proof.
  intros Hc. unfold search_expenses, read_sql_query. f_equal.
  apply select_ext. intros r. rewrite !forallb_build_query.
  do 2 f_equal. unfold if_truthy.
  rewrite <- (lower_empty c1), <- (lower_empty c2), Hc.
  destruct (is_empty (lower c2)); [done|]. simpl. by rewrite Hc.
Qed.

Lemma search_expenses_category_case_witness :
  search_expenses ledger None None (Some "FOOD") None None
  = search_expenses ledger None None (Some "food") None None.
Proof. by apply search_expenses_category_case. Defined.



(** ** Aggregates *)

(** X8.  A successful [add_expense] raises [total_spending] of
    [fetch_all] by the amount added. *)
Theorem total_spending_after_add (db db' : database) (d c : string)
    (a : Qc) (n : string) :
  add_expense db d c a n = Ok db' →
  total_spending (fetch_all db') = (total_spending (fetch_all db) + a)%Qc.
Proof.
  unfold add_expense. destruct (strptime d) as [dd|]; [|done].
  intros [= <-].
  rewrite (total_spending_perm (fetch_all (insert db _ _ _ _))
             (to_record (Expense (last_id db + 1) d (strip c) a
                (if is_empty n then None else Some (strip n)))
              :: fetch_all db)).
  - unfold total_spending, sum. rewrite fmap_cons.
    cbn [foldr to_record r_amount amount]. ring.
  - by rewrite !fetch_all_select, select_all_insert.
Qed.

Lemma total_spending_after_add_witness :
  total_spending
    (fetch_all (insert ledger "2024-03-09" "Rent" (Qc_of_Z 700) None))
  = (total_spending (fetch_all ledger) + Qc_of_Z 700)%Qc.
Proof. by apply (total_spending_after_add ledger _ "2024-03-09" "Rent" _ ""). Defined.

(** X9.  [monthly_trend] leaves out the records whose date is
    missing: its sums add up to the total of the dated records, and
    no entry is labelled [NaT]. *)
Theorem monthly_trend_drops_undated (df : list record) :
  sum (values (monthly_trend df))
    = total_spending (filter (λ r, is_Some (r_date r)) df)
  ∧ Forall (λ e, e.1 ≠ "NaT") (monthly_trend df).
Proof.
  split; [apply month_sums_total|].
  rewrite monthly_trend_month_series. apply Forall_fmap, Forall_forall.
  intros [[y m] v] _. simpl. unfold pad4. done.
Qed.

(** X10.  [spending_by_category] is empty only for the empty frame,
    and [monthly_trend] is empty exactly when no record has a date. *)
Theorem aggregates_empty_iff (df : list record) :
  (spending_by_category df = [] ↔ df = [])
  ∧ (monthly_trend df = [] ↔ Forall (λ r, r_date r = None) df).
Proof.
  split; [apply spending_by_category_empty|apply monthly_trend_empty].
Qed.



(** ** The interactive shell *)

Module ShellFacts.
Import Text Calendar Store Analytics Csv Console Shell ShellSpec.
Import TextFacts StoreFacts.

Global Instance world_grows_preorder : PreOrder world_grows.
Proof.
  split.
  - intros w. by split.
  - intros w1 w2 w3 [? ? ? ? Ha] [? ? ? ? Hb]. split.
    + by etrans.
    + by etrans.
    + by etrans.
    + congruence.
    + intros ??. destruct Ha as [??]; auto.
Qed.

Global Instance grows_preorder : PreOrder grows.
Proof.
  split.
  - intros st. by split.
  - intros st1 st2 st3 [??] [??]. split; by etrans.
Qed.

Lemma print_grows text w : world_grows w (print text w).
Proof. split; simpl; try done. by apply suffix_cons_r. Qed.

Lemma input_grows prompt w : world_grows w (input prompt w).2.
Proof.
  unfold input. destruct (stdin w) as [|l ls] eqn:E; simpl.
  - apply print_grows.
  - split; simpl; try done.
    + by apply suffix_cons_r.
    + rewrite E. by apply suffix_cons_r.
Qed.

(** [input] fails only at the end of the input, and otherwise takes
    one line from it. *)
Lemma input_None prompt w :
  (input prompt w).1 = None → stdin (input prompt w).2 = [].
Proof. unfold input. by destruct (stdin w) eqn:E. Qed.

Lemma input_Some prompt w l :
  (input prompt w).1 = Some l → stdin w = l :: stdin (input prompt w).2.
Proof. unfold input. destruct (stdin w) eqn:E; [done|]. by intros [= ->]. Qed.

Lemma input_db prompt w : db (input prompt w).2 = db w.
Proof. unfold input. by destruct (stdin w). Qed.

Lemma add_expense_grows w d c a n db' :
  add_expense (db w) d c a n = Ok db' →
  world_grows w (World db' (stdin w) (stdout w) (today w)).
Proof.
  intros Hadd. split; simpl; try done.
  - rewrite (add_expense_stored _ _ _ _ _ _ Hadd). by apply prefix_app_r.
  - intros ??. by eapply add_expense_primary_key.
Qed.

Section shell.
Variable float : string → option Qc.
Variable frame_to_string : list record → string.
Variable series_to_string : series (option string) → string.
Variable format_2f : Qc → string.
Variable float_repr : Qc → string.

(** *** The add command *)

Lemma ask_notes_grows d c a w : world_grows w (ask_notes d c a w).2.
Proof.
  unfold ask_notes.
  pose proof (input_grows "Notes (optional): " w) as Hi.
  destruct (input "Notes (optional): " w) as [[l|] w1]; simpl in *; [|done].
  destruct (add_expense (db w1) d c a (strip l)) as [db'|[msg]] eqn:E;
    simpl.
  - etrans; [exact Hi|]. etrans; [by eapply add_expense_grows|].
    apply print_grows.
  - etrans; [exact Hi|]. apply print_grows.
Qed.

Lemma ask_amount_grows d c w : world_grows w (ask_amount float d c w).2.
Proof.
  unfold ask_amount.
  pose proof (input_grows "Amount (numeric): " w) as Hi.
  destruct (input "Amount (numeric): " w) as [[l|] w1]; simpl in *; [|done].
  destruct (String.eqb (lower (strip l)) "q"); [done|].
  destruct (float (strip l)) as [amt|]; simpl.
  - etrans; [exact Hi|]. apply ask_notes_grows.
  - etrans; [exact Hi|]. apply print_grows.
Qed.

Lemma ask_category_grows d w : world_grows w (ask_category float d w).2.
Proof.
  unfold ask_category.
  pose proof (input_grows "Category (e.g., Food, Travel): " w) as Hi.
  destruct (input "Category (e.g., Food, Travel): " w) as [[l|] w1];
    simpl in *; [|done].
  destruct (_ || _); simpl.
  - etrans; [exact Hi|]. apply print_grows.
  - etrans; [exact Hi|]. apply ask_amount_grows.
Qed.

Lemma console_prompt_add_grows w :
  world_grows w (Console.prompt_add float w).2.
Proof.
  unfold Console.prompt_add.
  set (w0 := print _ w).
  assert (world_grows w w0) as H0 by apply print_grows.
  pose proof (input_grows "Date (YYYY-MM-DD) [default: today]: " w0) as Hi.
  destruct (input "Date (YYYY-MM-DD) [default: today]: " w0) as [[l|] w1];
    simpl in *; [|by etrans].
  destruct (String.eqb (lower (strip l)) "q"); simpl; [by etrans|].
  etrans; [exact H0|]. etrans; [exact Hi|]. apply ask_category_grows.
Qed.

(** End of input is the only way the add command is cut short, and
    then nothing is left to read. *)
Lemma ask_notes_eof d c a w :
  (ask_notes d c a w).1 = EOFError → stdin (ask_notes d c a w).2 = [].
Proof.
  unfold ask_notes.
  pose proof (input_None "Notes (optional): " w) as Hi.
  destruct (input "Notes (optional): " w) as [[l|] w1]; simpl in *; [|auto].
  by destruct (add_expense (db w1) d c a (strip l)) as [db'|[msg]].
Qed.

Lemma ask_amount_eof d c w :
  (ask_amount float d c w).1 = EOFError →
  stdin (ask_amount float d c w).2 = [].
Proof.
  unfold ask_amount.
  pose proof (input_None "Amount (numeric): " w) as Hi.
  destruct (input "Amount (numeric): " w) as [[l|] w1]; simpl in *; [|auto].
  destruct (String.eqb (lower (strip l)) "q"); [done|].
  destruct (float (strip l)) as [amt|]; simpl; [|done].
  apply ask_notes_eof.
Qed.

Lemma ask_category_eof d w :
  (ask_category float d w).1 = EOFError →
  stdin (ask_category float d w).2 = [].
Proof.
  unfold ask_category.
  pose proof (input_None "Category (e.g., Food, Travel): " w) as Hi.
  destruct (input "Category (e.g., Food, Travel): " w) as [[l|] w1];
    simpl in *; [|auto].
  destruct (_ || _); simpl; [done|]. apply ask_amount_eof.
Qed.

Lemma console_prompt_add_eof w :
  (Console.prompt_add float w).1 = EOFError →
  stdin (Console.prompt_add float w).2 = [].
Proof.
  unfold Console.prompt_add.
  set (w0 := print _ w).
  pose proof (input_None "Date (YYYY-MM-DD) [default: today]: " w0) as Hi.
  destruct (input "Date (YYYY-MM-DD) [default: today]: " w0) as [[l|] w1];
    simpl in *; [|auto].
  destruct (String.eqb (lower (strip l)) "q"); simpl; [done|].
  apply ask_category_eof.
Qed.

(** *** The building blocks of the other commands *)

Lemma say_grows text st : grows st (say text st).
Proof. split; [apply print_grows|done]. Qed.

Lemma say_reads_only text st : reads_only st (say text st).
Proof. done. Qed.

Lemma perform_grows es st : grows st (perform es st).
Proof.
  revert st. induction es as [|e es IH]; intros st; [done|].
  simpl. etrans; [|apply IH].
  destruct e; try apply say_grows; split; simpl; try done;
    by apply suffix_cons_r.
Qed.

Lemma perform_reads_only es st : reads_only st (perform es st).
Proof.
  revert st. induction es as [|e es IH]; intros st; [done|].
  simpl. unfold reads_only in *. rewrite IH. by destruct e.
Qed.

Lemma with_input_grows prompt k st :
  (∀ l st1, grows st1 (k l st1).2) → grows st (with_input prompt k st).2.
Proof.
  intros Hk. unfold with_input.
  pose proof (input_grows prompt (console st)) as Hi.
  destruct (input prompt (console st)) as [[l|] w]; simpl in *.
  - etrans; [|apply Hk]. by split.
  - by split.
Qed.

Lemma with_input_reads_only prompt k st :
  (∀ l st1, reads_only st1 (k l st1).2) →
  reads_only st (with_input prompt k st).2.
Proof.
  intros Hk. unfold with_input, reads_only in *.
  pose proof (input_db prompt (console st)) as Hi.
  destruct (input prompt (console st)) as [[l|] w]; simpl in *; [|done].
  by rewrite Hk.
Qed.

Lemma with_input_eof prompt k st :
  (∀ l st1, (k l st1).1 = EOFError → stdin (console (k l st1).2) = []) →
  (with_input prompt k st).1 = EOFError →
  stdin (console (with_input prompt k st).2) = [].
Proof.
  intros Hk. unfold with_input.
  pose proof (input_None prompt (console st)) as Hi.
  destruct (input prompt (console st)) as [[l|] w]; simpl in *; auto.
Qed.

Lemma display_df_grows df limit st :
  grows st (display_df frame_to_string df limit st).
Proof. unfold display_df. case_bool_decide; apply say_grows. Qed.

Lemma display_df_reads_only df limit st :
  reads_only st (display_df frame_to_string df limit st).
Proof. unfold display_df. by case_bool_decide. Qed.

(** *** The commands *)

Lemma prompt_view_all_grows st :
  grows st (prompt_view_all frame_to_string st).2.
Proof. apply display_df_grows. Qed.

Lemma prompt_search_grows st :
  grows st (prompt_search float frame_to_string st).2.
Proof.
  unfold prompt_search. etrans; [apply say_grows|].
  repeat (apply with_input_grows; intros ??).
  repeat case_match; simpl; apply display_df_grows || apply say_grows.
Qed.

Lemma prompt_analytics_grows st :
  grows st (prompt_analytics series_to_string format_2f st).2.
Proof.
  unfold prompt_analytics. case_bool_decide; [apply say_grows|].
  destruct (Charts.plot_pie_category _ _) as [es1 p1].
  destruct (Charts.plot_monthly_trend _ _) as [es2 p2]. simpl.
  repeat first [done | etrans; [|apply say_grows]
               | etrans; [|apply perform_grows]].
Qed.

Lemma prompt_export_grows st : grows st (prompt_export float_repr st).2.
Proof.
  unfold prompt_export. case_bool_decide; [apply say_grows|].
  apply with_input_grows. intros l st1.
  destruct (export_csv _ _ _) as [es p]. simpl.
  etrans; [apply perform_grows|apply say_grows].
Qed.

Lemma prompt_add_grows st : grows st (Shell.prompt_add float st).2.
Proof.
  unfold Shell.prompt_add.
  pose proof (console_prompt_add_grows (console st)) as H.
  destruct (Console.prompt_add float (console st)) as [o w]. by split.
Qed.

Lemma command_grows choice run st :
  command float frame_to_string series_to_string format_2f float_repr choice
    = Some run →
  grows st (run st).2.
Proof.
  unfold command. intros H.
  repeat (case_match; simplify_eq);
    [apply prompt_add_grows | apply prompt_view_all_grows
    | apply prompt_search_grows | apply prompt_analytics_grows
    | apply prompt_export_grows | apply say_grows].
Qed.

Lemma command_eof choice run st :
  command float frame_to_string series_to_string format_2f float_repr choice
    = Some run →
  (run st).1 = EOFError → stdin (console (run st).2) = [].
Proof.
  unfold command. intros H.
  repeat (case_match; simplify_eq); try done.
  - unfold Shell.prompt_add.
    pose proof (console_prompt_add_eof (console st)) as He.
    by destruct (Console.prompt_add float (console st)) as [o w].
  - unfold prompt_search.
    repeat (apply with_input_eof; intros ??).
    by repeat case_match.
  - unfold prompt_analytics. case_bool_decide; [done|].
    destruct (Charts.plot_pie_category _ _) as [es1 p1].
    by destruct (Charts.plot_monthly_trend _ _) as [es2 p2].
  - unfold prompt_export. case_bool_decide; [done|].
    apply with_input_eof. intros l st1.
    by destruct (export_csv _ _ _) as [es p].
Qed.

(** Every command but the first leaves the table as it is. *)
Lemma command_reads_only choice run st :
  command float frame_to_string series_to_string format_2f float_repr choice
    = Some run →
  choice ≠ "1" → reads_only st (run st).2.
Proof.
  unfold command. intros H Hne.
  repeat (case_match; simplify_eq).
  - by apply String.eqb_eq in H0.
  - apply display_df_reads_only.
  - unfold prompt_search.
    apply (with_input_reads_only _ _ (say _ st)). intros ??.
    repeat (apply with_input_reads_only; intros ??).
    repeat case_match; simpl; try done; apply display_df_reads_only.
  - unfold prompt_analytics. case_bool_decide; [done|].
    destruct (Charts.plot_pie_category _ _) as [es1 p1].
    destruct (Charts.plot_monthly_trend _ _) as [es2 p2]. simpl.
    unfold reads_only. simpl. by rewrite !perform_reads_only.
  - unfold prompt_export. case_bool_decide; [done|].
    apply with_input_reads_only. intros l st1.
    destruct (export_csv _ _ _) as [es p].
    unfold reads_only. simpl. by rewrite perform_reads_only.
  - done.
Qed.

(** The quit words are not command numbers. *)
Lemma is_quit_no_command choice :
  is_quit choice = true →
  command float frame_to_string series_to_string format_2f float_repr choice
    = None.
Proof.
  intros H. unfold command.
  repeat (case_match;
          [match goal with
           | E : (_ =? _)%string = true |- _ =>
               apply String.eqb_eq in E; subst; by vm_compute in H
           end|]).
  done.
Qed.

(** *** The main loop *)

Abbreviation run_loop :=
  (loop float frame_to_string series_to_string format_2f float_repr).

Lemma loop_grows fuel st : grows st (run_loop fuel st).2.
Proof.
  revert st. induction fuel as [|fuel IH]; intros st; [done|].
  cbn [loop].
  pose proof (input_grows "Enter choice [1-7]: " (console (say MENU st)))
    as Hi.
  assert (grows st (say MENU st)) as [Hm _] by apply say_grows.
  destruct (input "Enter choice [1-7]: " (console (say MENU st)))
    as [[l|] w]; simpl in *.
  - assert (grows st (State w (outputs st))) as H1
      by (split; [by etrans|done]).
    destruct (command _ _ _ _ _ (strip l)) as [run|] eqn:Ec.
    + pose proof (command_grows _ _ (State w (outputs st)) Ec) as H2.
      destruct (run (State w (outputs st))) as [[|] st2]; simpl in *.
      * etrans; [exact H1|]. etrans; [exact H2|]. apply IH.
      * by etrans.
    + destruct (is_quit (strip l)); simpl.
      * etrans; [exact H1|]. apply say_grows.
      * etrans; [exact H1|]. etrans; [apply say_grows|]. apply IH.
  - split; [by etrans|done].
Qed.

Lemma loop_ends fuel st :
  (length (stdin (console st)) < fuel)%nat →
  (run_loop fuel st).1 ≠ OutOfFuel
  ∧ ((run_loop fuel st).1 = Eof → stdin (console (run_loop fuel st).2) = []).
Proof.
  revert st. induction fuel as [|fuel IH]; intros st Hf; [lia|].
  cbn [loop].
  pose proof (input_None "Enter choice [1-7]: " (console (say MENU st)))
    as Hn.
  pose proof (input_Some "Enter choice [1-7]: " (console (say MENU st)))
    as Hs.
  destruct (input "Enter choice [1-7]: " (console (say MENU st)))
    as [[l|] w]; simpl in *; [|by auto].
  specialize (Hs l eq_refl).
  assert (length (stdin w) < fuel)%nat as Hw by (rewrite Hs in Hf; simpl in Hf; lia).
  destruct (command _ _ _ _ _ (strip l)) as [run|] eqn:Ec.
  - pose proof (command_grows _ _ (State w (outputs st)) Ec) as [[] _].
    pose proof (command_eof _ _ (State w (outputs st)) Ec) as He.
    destruct (run (State w (outputs st))) as [[|] st2]; simpl in *.
    + apply IH. apply suffix_length in grows_stdin0. lia.
    + split; [done|auto].
  - destruct (is_quit (strip l)); simpl; [done|]. by apply IH.
Qed.

(** A session in which command [1] is never chosen leaves the table as
    it is. *)
Lemma loop_reads_only fuel st :
  Forall (λ l, strip l ≠ "1") (stdin (console st)) →
  reads_only st (run_loop fuel st).2.
Proof.
  revert st. induction fuel as [|fuel IH]; intros st Hall; [done|].
  cbn [loop]. unfold input. simpl.
  destruct (stdin (console st)) as [|l ls] eqn:E; [done|].
  apply Forall_cons in Hall as [Hl Hls]. simpl.
  set (st1 := State _ _).
  assert (reads_only st st1) as H1 by done.
  destruct (command _ _ _ _ _ (strip l)) as [run|] eqn:Ec.
  - pose proof (command_reads_only _ _ st1 Ec Hl) as H2.
    pose proof (command_grows _ _ st1 Ec) as [[_ _ [k Hk] _ _] _].
    simpl in Hk. rewrite Hk in Hls. apply Forall_app in Hls as [_ Hls].
    destruct (run st1) as [[|] st2]; simpl in *.
    + unfold reads_only in *. rewrite IH by done. congruence.
    + unfold reads_only in *. congruence.
  - destruct (is_quit (strip l)); simpl; [done|].
    unfold reads_only. by rewrite IH.
Qed.

End shell.

(** *** Reading one line *)

Lemma with_input_cons prompt k st l ls :
  stdin (console st) = l :: ls →
  with_input prompt k st
  = k (strip l)
      (State (World (db (console st)) ls (prompt :: stdout (console st))
                (today (console st)))
         (outputs st)).
Proof. intros H. unfold with_input, input. by rewrite H. Qed.

(** *** What the add command reports *)

Lemma add_outcome_db w w1 w' :
  db w1 = db w → add_outcome w1 w' → add_outcome w w'.
Proof.
  unfold add_outcome, inserted. intros ->. done.
Qed.

Lemma ask_notes_outcome d c a w :
  c ≠ "" → strip c = c → add_outcome w (ask_notes d c a w).2.
Proof.
  intros Hc Hs. unfold ask_notes, input.
  destruct (stdin w) as [|l ls]; simpl.
  - right. split; [|done]. unfold reported. simpl. by intros [=].
  - destruct (add_expense (db w) d c a (strip l)) as [db'|[msg]] eqn:E;
      simpl.
    + left. split; [done|].
      pose proof (add_expense_stored _ _ _ _ _ _ E) as Hrows.
      unfold add_expense in E. destruct (strptime d) as [x|] eqn:Ed; [|done].
      injection E as <-. eexists. simpl. split; [exact Hrows|].
      rewrite Hs. simpl. by rewrite Ed.
    + right. split; [|done]. unfold reported. simpl. by intros [=].
Qed.

Lemma ask_amount_outcome float d c w :
  c ≠ "" → strip c = c → add_outcome w (ask_amount float d c w).2.
Proof.
  intros Hc Hs. unfold ask_amount, input.
  destruct (stdin w) as [|l ls]; simpl.
  - right. split; [|done]. unfold reported. simpl. by intros [=].
  - destruct (String.eqb (lower (strip l)) "q").
    { right. split; [|done]. unfold reported. simpl. by intros [=]. }
    destruct (float (strip l)) as [amt|]; simpl.
    + eapply add_outcome_db; [|by apply ask_notes_outcome]. done.
    + right. split; [|done]. unfold reported. simpl. by intros [=].
Qed.

Lemma ask_category_outcome float d w :
  add_outcome w (ask_category float d w).2.
Proof.
  unfold ask_category, input.
  destruct (stdin w) as [|l ls]; simpl.
  - right. split; [|done]. unfold reported. simpl. by intros [=].
  - destruct (_ || _) eqn:E; simpl.
    + right. split; [|done]. unfold reported. simpl. by intros [=].
    + apply orb_false_iff in E as [_ E].
      eapply add_outcome_db; [|apply ask_amount_outcome].
      * done.
      * intros He. by rewrite He in E.
      * apply TrimFacts.strip_trimmed.
Qed.

Lemma console_prompt_add_outcome float w :
  add_outcome w (Console.prompt_add float w).2.
Proof.
  unfold Console.prompt_add, input.
  destruct (stdin w) as [|l ls] eqn:E; simpl; rewrite E.
  - right. split; [|done]. unfold reported. simpl. by intros [=].
  - destruct (String.eqb (lower (strip l)) "q"); simpl.
    { right. split; [|done]. unfold reported. simpl. by intros [=]. }
    eapply add_outcome_db; [|apply ask_category_outcome]. done.
Qed.

End ShellFacts.

Import Console Shell ShellSpec ShellFacts.

(** ** A session of the main loop *)

(** X12.  Whatever is typed, a session of [main_loop] only appends rows
    to the table and never changes or removes an earlier row; it only
    adds to what was printed, and to the plotting calls made and files
    written, and it only consumes input. *)
Theorem main_loop_append_only (float : string → option Qc)
    (frame_to_string : list record → string)
    (series_to_string : series (option string) → string)
    (format_2f float_repr : Qc → string) (fuel : nat) (st : state) :
  let st' :=
    (main_loop float frame_to_string series_to_string format_2f float_repr
       fuel st).2 in
  rows (db (console st)) `prefix_of` rows (db (console st'))
  ∧ stdout (console st) `suffix_of` stdout (console st')
  ∧ outputs st `suffix_of` outputs st'
  ∧ stdin (console st') `suffix_of` stdin (console st)
  ∧ today (console st') = today (console st).
Proof.
  destruct (loop_grows float frame_to_string series_to_string format_2f
              float_repr fuel st) as [[] ?].
  by split_and!.
Qed.

(** X13.  A session of [main_loop] keeps the ids of the table unique
    and within the sequence, whatever is typed. *)
Theorem main_loop_keeps_key (float : string → option Qc)
    (frame_to_string : list record → string)
    (series_to_string : series (option string) → string)
    (format_2f float_repr : Qc → string) (fuel : nat) (st : state) :
  primary_key (db (console st)) → sequenced (db (console st)) →
  let st' :=
    (main_loop float frame_to_string series_to_string format_2f float_repr
       fuel st).2 in
  primary_key (db (console st')) ∧ sequenced (db (console st')).
Proof.
  intros Hpk Hs.
  destruct (loop_grows float frame_to_string series_to_string format_2f
              float_repr fuel st) as [[_ _ _ _ Hkey] _].
  by apply Hkey.
Qed.

Lemma main_loop_keeps_key_witness :
  let st' :=
    (main_loop whole fixed_text fixed_text fixed_text fixed_text 10
       (session ["1"; "2024-3-1"; " Food "; "12"; "lunch"; "2"; "7"])).2 in
  length (rows (db (console st'))) = 4%nat
  ∧ primary_key (db (console st')) ∧ sequenced (db (console st')).
Proof.
  split; [by vm_compute|].
  apply (main_loop_keeps_key whole fixed_text fixed_text fixed_text
           fixed_text 10
           (session ["1"; "2024-3-1"; " Food "; "12"; "lunch"; "2"; "7"])).
  - exact ledger_primary_key.
  - split; [done|]. apply (bool_decide_unpack _). by vm_compute.
Defined.



(** X15.  The table changes through the add command only: a session
    in which no line is the choice [1] leaves the table exactly as it
    was, whatever else is typed. *)
Theorem main_loop_reads_only (float : string → option Qc)
    (frame_to_string : list record → string)
    (series_to_string : series (option string) → string)
    (format_2f float_repr : Qc → string) (fuel : nat) (st : state) :
  Forall (λ l, strip l ≠ "1") (stdin (console st)) →
  db (console
        (main_loop float frame_to_string series_to_string format_2f
           float_repr fuel st).2)
  = db (console st).
Proof.
  apply (loop_reads_only float frame_to_string series_to_string format_2f
           float_repr fuel st).
Qed.

Lemma main_loop_reads_only_witness :
  db (console
        (main_loop whole fixed_text fixed_text fixed_text fixed_text 10
           (session ["2"; "4"; "5"; "out.csv"; "6"; "8"; "quit"])).2)
  = ledger.
Proof.
  apply (main_loop_reads_only whole fixed_text fixed_text fixed_text
           fixed_text 10
           (session ["2"; "4"; "5"; "out.csv"; "6"; "8"; "quit"])).
  apply (bool_decide_unpack _). by vm_compute.
Defined.

(** X16.  The choice [7] and, in any letter case, the words [q],
    [quit] and [exit] end the loop with the farewell line; the table,
    the files and the rest of the input are left as they are. *)
Theorem main_loop_quit (float : string → option Qc)
    (frame_to_string : list record → string)
    (series_to_string : series (option string) → string)
    (format_2f float_repr : Qc → string) (fuel : nat) (st : state)
    (l : string) (rest : list string) :
  stdin (console st) = l :: rest →
  strip l = "7" ∨ lower (strip l) ∈ ["q"; "quit"; "exit"] →
  ∃ out,
    main_loop float frame_to_string series_to_string format_2f float_repr
      (S fuel) st
    = (ByQuit,
       State
         (World (db (console st)) rest
            ("Bye — remember to commit your changes if you added data!"
             :: out ++ stdout (console st))
            (today (console st)))
         (outputs st)).
Proof.
  intros Hin Hq.
  assert (is_quit (strip l) = true) as Hquit.
  { unfold is_quit. destruct Hq as [->|Hq]; [done|].
    rewrite !elem_of_cons, elem_of_nil in Hq.
    destruct (String.eqb (strip l) "7"); [done|].
    destruct_or!; try done; by rewrite Hq. }
  unfold main_loop. cbn [loop]. unfold input. simpl. rewrite Hin.
  rewrite (is_quit_no_command float frame_to_string series_to_string
             format_2f float_repr _ Hquit), Hquit.
  by exists ["Enter choice [1-7]: "; MENU].
Qed.

Lemma main_loop_quit_witness :
  ∃ out,
    main_loop whole fixed_text fixed_text fixed_text fixed_text 1
      (session ["  Exit "; "1"])
    = (ByQuit,
       State
         (World ledger ["1"]
            ("Bye — remember to commit your changes if you added data!"
             :: out ++ [])
            (Ymd 2024 3 2))
         []).
Proof.
  apply (main_loop_quit whole fixed_text fixed_text fixed_text fixed_text 0
           (session ["  Exit "; "1"]) "  Exit " ["1"]).
  - reflexivity.
  - right. apply list_elem_of_In. vm_compute. tauto.
Defined.

(** ** The commands *)

(** X17.  The add command reports success exactly when it has stored a
    row: if its last line is the success message, the table has one
    more row, with the next id, a date that the date check accepts and
    a trimmed, non-empty category; otherwise the table is unchanged. *)
Theorem prompt_add_reports_insert (float : string → option Qc)
    (w : world) :
  let w' := (Console.prompt_add float w).2 in
  (head (stdout w') = Some "✔ Expense added." →
   ∃ e, rows (db w') = rows (db w) ++ [e]
        ∧ id e = last_id (db w) + 1
        ∧ is_Some (strptime (date e))
        ∧ category e ≠ "" ∧ strip (category e) = category e)
  ∧ (head (stdout w') ≠ Some "✔ Expense added." → db w' = db w).
Proof.
  destruct (console_prompt_add_outcome float w)
    as [[Hr (e&?&?&?&?&?&?)]|[Hr ?]]; split; try done.
  intros _. by exists e.
Qed.

Lemma prompt_add_reports_insert_witness :
  ∃ e,
    rows (db (Console.prompt_add whole
                (World ledger [""; "Food"; "12"; ""] [] (Ymd 2024 3 2))).2)
    = rows ledger ++ [e]
    ∧ id e = 4
    ∧ is_Some (strptime (date e))
    ∧ category e ≠ "" ∧ strip (category e) = category e.
Proof.
  apply (prompt_add_reports_insert whole
           (World ledger [""; "Food"; "12"; ""] [] (Ymd 2024 3 2))).
  reflexivity.
Defined.

(** X18.  An empty answer to the date question stands for today: when
    the category and the amount are accepted, the add command stores
    the row under today's date written as [YYYY-MM-DD], which the date
    check reads back as today; no date error is reported.  (The year
    is taken from 1000 on, where [strftime] writes it in four digits
    on every platform.) *)
Theorem prompt_add_default_date (float : string → option Qc) (w : world)
    (l1 l2 l3 l4 : string) (rest : list string) (a : Qc) :
  valid_date (today w) = true → 1000 ≤ year (today w) →
  stdin w = l1 :: l2 :: l3 :: l4 :: rest →
  strip l1 = "" →
  strip l2 ≠ "" → lower (strip l2) ≠ "q" →
  lower (strip l3) ≠ "q" → float (strip l3) = Some a →
  ∃ out e,
    Console.prompt_add float w
    = (Done,
       World (Database (rows (db w) ++ [e]) (id e)) rest
         ("✔ Expense added." :: out ++ stdout w) (today w))
    ∧ date e = isoformat (today w)
    ∧ is_canonical (date e) = true
    ∧ strptime (date e) = Some (today w)
    ∧ category e = strip l2 ∧ amount e = a.
Proof.
  intros Hv _ Hin H1 H2 H2q H3q Hf.
  apply String.eqb_neq in H2q, H3q.
  assert (is_empty (strip l2) = false) as H2e.
  { destruct (is_empty (strip l2)) eqn:E; [|done].
    by apply is_empty_spec in E. }
  destruct (strip_trimmed l2) as (_&_&Hs2).
  destruct (strip_trimmed l4) as (_&_&Hs4).
  pose proof (strptime_isoformat _ Hv) as Hp.
  destruct w as [d i o t]. simpl in Hin, Hv, Hp. subst i.
  unfold Console.prompt_add, ask_category, ask_amount, ask_notes, input,
    print, add_expense, insert.
  cbn -[strip lower isoformat String.app strptime is_empty].
  rewrite H1. cbn -[strip lower isoformat String.app strptime is_empty].
  rewrite H2q, H2e. cbn -[strip lower isoformat String.app strptime is_empty].
  rewrite H3q, Hf. cbn -[strip lower isoformat String.app strptime is_empty].
  change (is_empty "") with true. change (lower "" =? "q")%string with false.
  cbv beta iota. rewrite Hp, Hs2, Hs4.
  eexists [_; _; _; _; _], (Expense _ _ _ _ _). split; [reflexivity|].
  cbn [date category amount].
  split_and!; try done.
  unfold is_canonical. rewrite (strict_date_isoformat _ Hv).
  apply valid_date_spec in Hv. apply Z.leb_le. simpl in Hv. lia.
Qed.

Lemma prompt_add_default_date_witness :
  ∃ out e,
    Console.prompt_add whole
      (World ledger [" "; "Rent"; "700"; ""] [] (Ymd 2024 3 2))
    = (Done,
       World (Database (rows ledger ++ [e]) (id e)) []
         ("✔ Expense added." :: out ++ []) (Ymd 2024 3 2))
    ∧ date e = "2024-03-02"
    ∧ is_canonical (date e) = true
    ∧ strptime (date e) = Some (Ymd 2024 3 2)
    ∧ category e = "Rent" ∧ amount e = Qc_of_Z 700.
Proof.
  apply (prompt_add_default_date whole
           (World ledger [" "; "Rent"; "700"; ""] [] (Ymd 2024 3 2))
           " " "Rent" "700" "" [] (Qc_of_Z 700)); done.
Defined.

(** X19.  Answering every question of the search command with an empty
    line or white space lists the whole table: the command ends as the
    view command does. *)
Theorem prompt_search_blank (float : string → option Qc)
    (frame_to_string : list record → string) (st : state)
    (l1 l2 l3 l4 l5 : string) (rest : list string) :
  stdin (console st) = l1 :: l2 :: l3 :: l4 :: l5 :: rest →
  Forall (λ l, strip l = "") [l1; l2; l3; l4; l5] →
  ∃ out,
    prompt_search float frame_to_string st
    = prompt_view_all frame_to_string
        (State
           (World (db (console st)) rest (out ++ stdout (console st))
              (today (console st)))
           (outputs st)).
Proof.
  intros Hin Hall.
  rewrite !Forall_cons in Hall. destruct Hall as (H1&H2&H3&H4&H5&_).
  destruct st as [[d i o t] outs]. simpl in Hin. subst i.
  unfold prompt_search, with_input, input, say, print.
  cbn -[strip or_None float_or_None String.app search_expenses fetch_all
        display_df].
  rewrite H1, H2, H3, H4, H5.
  by eexists [_; _; _; _; _; _].
Qed.

Lemma prompt_search_blank_witness :
  ∃ out,
    prompt_search whole fixed_text (session [""; " "; ""; ""; "  "; "7"])
    = prompt_view_all fixed_text
        (State (World ledger ["7"] (out ++ []) (Ymd 2024 3 2)) []).
Proof.
  apply (prompt_search_blank whole fixed_text
           (session [""; " "; ""; ""; "  "; "7"]) "" " " "" "" "  " ["7"]).
  - reflexivity.
  - apply (bool_decide_unpack _). by vm_compute.
Defined.

(** X20.  An amount bound that is not empty and is not a number makes
    the search command print ["Invalid amount filters."] and end
    without running a query; this holds for either bound, also when
    the other one is a number. *)
Theorem prompt_search_invalid_amount (float : string → option Qc)
    (frame_to_string : list record → string) (st : state)
    (l1 l2 l3 l4 l5 : string) (rest : list string) :
  stdin (console st) = l1 :: l2 :: l3 :: l4 :: l5 :: rest →
  (strip l4 ≠ "" ∧ float (strip l4) = None)
  ∨ (strip l5 ≠ "" ∧ float (strip l5) = None) →
  ∃ out,
    prompt_search float frame_to_string st
    = (Done,
       State
         (World (db (console st)) rest
            ("Invalid amount filters." :: out ++ stdout (console st))
            (today (console st)))
         (outputs st)).
Proof.
  intros Hin Hbad.
  destruct st as [[d i o t] outs]. simpl in Hin. subst i.
  unfold prompt_search, with_input, input, say, print.
  cbn -[strip or_None float_or_None String.app search_expenses fetch_all
        display_df].
  exists ["Max amount: "; "Min amount: "; "Category (exact match): ";
          "End date (YYYY-MM-DD): "; "Start date (YYYY-MM-DD): ";
          nl +:+ "Search / Filter (press ENTER to skip a filter)" +:+ nl].
  destruct Hbad as [[Hne Hf]|[Hne Hf]].
  - assert (or_None (strip l4) = Some (strip l4)) as ->.
    { unfold or_None. destruct (is_empty (strip l4)) eqn:E; [|done].
      by apply is_empty_spec in E. }
    simpl. by rewrite Hf.
  - assert (or_None (strip l5) = Some (strip l5)) as ->.
    { unfold or_None. destruct (is_empty (strip l5)) eqn:E; [|done].
      by apply is_empty_spec in E. }
    simpl. rewrite Hf. simpl. by destruct (float_or_None _ _).
Qed.

Lemma prompt_search_invalid_amount_witness :
  ∃ out,
    prompt_search whole fixed_text (session [""; ""; ""; "10"; "ten"])
    = (Done,
       State
         (World ledger [] ("Invalid amount filters." :: out ++ [])
            (Ymd 2024 3 2))
         []).
Proof.
  apply (prompt_search_invalid_amount whole fixed_text
           (session [""; ""; ""; "10"; "ten"]) "" "" "" "10" "ten" []).
  - reflexivity.
  - right. by split.
Defined.




